(** * Scene tools: the Tile Expander and the Collider Cleaner

    A shallow embedding of the two command-line scripts of the repository,
    [MD/OLD MD/expand_tilemap.py] and [cleanup_colliders.py], and the
    properties of their specification.

    Both scripts read a JSON scene document with [json.load], work on the
    resulting Python objects and write the document back with [json.dump].
    The embedding follows the scripts statement by statement:

    - a JSON value is a tree of type [json]; a Python [dict] is an
      association list in insertion order;
    - the operations the scripts apply to values whose shape they never
      check ([x[0]], [for x in ...], [.startswith], [.get], [.copy], [len],
      hashing) are total functions into [result], which raise the exception
      Python raises;
    - printing, reading and writing files thread a [world] (file system
      and standard output) through the monad [M]. *)

From Stdlib Require Import ZArith List String Ascii Bool Lia.
Import ListNotations.

Open Scope string_scope.
Open Scope list_scope.
Open Scope Z_scope.

Set Warnings "-register-all".

(* ================================================================== *)
(** * JSON values as [json.load] builds them *)
(* ================================================================== *)

(** A Python [float] other than NaN: signed zero, signed infinity, or
    [(-1)^neg * m * 2^e].  Strict JSON has no NaN literal, and whether a
    NaN belongs to a [set] depends on object identity, which a value
    model does not have. *)
Inductive pyfloat : Type :=
| FZero (neg : bool)
| FInf (neg : bool)
| FFin (neg : bool) (m : positive) (e : Z).

(** A Python [str] is a sequence of code points; a [string] here is a
    sequence of 8-bit characters, read as the code points 0..255. *)
Inductive json : Type :=
| JNull
| JBool (b : bool)
| JInt (n : Z)
| JFloat (f : pyfloat)
| JStr (s : string)
| JArr (l : list json)
| JObj (d : list (string * json)).

(** A [dict] with string keys, in insertion order.  [json.load] never
    yields two bindings for one key. *)
Definition dict : Type := list (string * json).

(** Exceptions the scripts can raise. *)
Inductive exn : Type :=
| TypeError
| IndexError
| KeyError
| AttributeError
| ZeroDivisionError
| FileNotFoundError
| EOFError
| SystemExit (code : Z).

Inductive result (A : Type) : Type :=
| Ok (a : A)
| Raise (e : exn).

Arguments Ok {A} a.
Arguments Raise {A} e.

Definition rbind {A B} (r : result A) (k : A -> result B) : result B :=
  match r with
  | Ok a => k a
  | Raise e => Raise e
  end.

Notation "'let?' x ':=' r 'in' k" := (rbind r (fun x => k))
  (at level 10, x name, r at level 100, k at level 200).

(* ------------------------------------------------------------------ *)
(** ** Dictionaries *)

(** [key in d] *)
Fixpoint contains (key : string) (d : dict) : bool :=
  match d with
  | [] => false
  | (k, _) :: d' => if String.eqb key k then true else contains key d'
  end.

(** [d.get(key)], [None] when the key is absent. *)
Fixpoint lookup (key : string) (d : dict) : option json :=
  match d with
  | [] => None
  | (k, v) :: d' => if String.eqb key k then Some v else lookup key d'
  end.

(** [d.get(key, default)] *)
Definition get_default (key : string) (default : json) (d : dict) : json :=
  match lookup key d with
  | Some v => v
  | None => default
  end.

(** [d[key] = v]: an existing key keeps its position, a new key goes
    last. *)
Fixpoint setitem (key : string) (v : json) (d : dict) : dict :=
  match d with
  | [] => [(key, v)]
  | (k, w) :: d' =>
      if String.eqb key k then (k, v) :: d' else (k, w) :: setitem key v d'
  end.

(* ------------------------------------------------------------------ *)
(** ** Sequences *)

(** [range(n)] *)
Definition range (n : Z) : list Z := map Z.of_nat (seq 0 (Z.to_nat n)).

(** [l[i]] with Python's negative indices. *)
Definition py_index {A} (l : list A) (i : Z) : result A :=
  let n := Z.of_nat (List.length l) in
  let k := if i <? 0 then i + n else i in
  if k <? 0 then Raise IndexError
  else match nth_error l (Z.to_nat k) with
       | Some x => Ok x
       | None => Raise IndexError
       end.

(** The characters of a [str], each as a [str] of length one. *)
Definition chars (s : string) : list json :=
  map (fun c => JStr (String c EmptyString)) (list_ascii_of_string s).

(** [l[i] = x] for an index in range. *)
Fixpoint list_set {A} (i : nat) (x : A) (l : list A) : list A :=
  match l, i with
  | [], _ => []
  | _ :: l', O => x :: l'
  | y :: l', S i' => y :: list_set i' x l'
  end.

(* ------------------------------------------------------------------ *)
(** ** Operations on values of unchecked shape *)

(** [x[i]] for an integer [i]: lists and strings are indexed, a [dict]
    loaded from JSON has only string keys, the other values are not
    subscriptable. *)
Definition getitem (x : json) (i : Z) : result json :=
  match x with
  | JArr l => py_index l i
  | JStr s => py_index (chars s) i
  | JObj _ => Raise KeyError
  | _ => Raise TypeError
  end.

(** The values [for v in x] visits: the elements of a list, the keys of
    a [dict], the characters of a [str]. *)
Definition iterate (x : json) : result (list json) :=
  match x with
  | JArr l => Ok l
  | JObj d => Ok (map (fun kv => JStr (fst kv)) d)
  | JStr s => Ok (chars s)
  | _ => Raise TypeError
  end.

(** [len(x)] *)
Definition len (x : json) : result Z :=
  match x with
  | JArr l => Ok (Z.of_nat (List.length l))
  | JObj d => Ok (Z.of_nat (List.length d))
  | JStr s => Ok (Z.of_nat (String.length s))
  | _ => Raise TypeError
  end.

(** [x.startswith(p)]: only a [str] has the method. *)
Definition startswith (x : json) (p : string) : result bool :=
  match x with
  | JStr s => Ok (String.prefix p s)
  | _ => Raise AttributeError
  end.

(** [x.get(key, default)]: of the JSON values only a [dict] has [get]. *)
Definition get_method (x : json) (key : string) (default : json) : result json :=
  match x with
  | JObj d => Ok (get_default key default d)
  | _ => Raise AttributeError
  end.

(** [x] has a [copy] method. *)
Definition copyable (x : json) : bool :=
  match x with
  | JArr _ | JObj _ => true
  | _ => false
  end.

(** [x.copy()]: a shallow copy of a [list] or a [dict], the same value. *)
Definition copy (x : json) : result json :=
  match x with
  | JArr l => Ok (JArr l)
  | JObj d => Ok (JObj d)
  | _ => Raise AttributeError
  end.

(** [a % b] on Python integers: the result has the sign of [b]. *)
Definition py_mod (a b : Z) : result Z :=
  if b =? 0 then Raise ZeroDivisionError else Ok (a mod b).

(** Truth value of [x], as [not x] and [if x] test it. *)
Definition truthy (x : json) : bool :=
  match x with
  | JNull => false
  | JBool b => b
  | JInt n => negb (n =? 0)
  | JFloat (FZero _) => false
  | JFloat _ => true
  | JStr s => negb (String.eqb s "")
  | JArr l => match l with [] => false | _ => true end
  | JObj d => match d with [] => false | _ => true end
  end.

(* ------------------------------------------------------------------ *)
(** ** Equality and hashing of numbers, strings and [None] *)

Definition signed (neg : bool) (m : positive) : Z :=
  if neg then Z.neg m else Z.pos m.

(** The exact value of a number: [a * 2^e], or an infinity. *)
Inductive number : Type :=
| Finite (a e : Z)
| Infinite (neg : bool).

Definition float_number (f : pyfloat) : number :=
  match f with
  | FZero _ => Finite 0 0
  | FInf s => Infinite s
  | FFin s m e => Finite (signed s m) e
  end.

Definition bool_number (b : bool) : number := Finite (if b then 1 else 0) 0.

(** [x == y] on numbers: Python compares the exact values, also
    between an [int] and a [float]; [0.0 == -0.0]. *)
Definition number_eq (x y : number) : bool :=
  match x, y with
  | Finite a e, Finite b e' =>
      let m := Z.min e e' in a * 2 ^ (e - m) =? b * 2 ^ (e' - m)
  | Infinite s, Infinite t => Bool.eqb s t
  | _, _ => false
  end.

(** [x == n] for an integer [n].  [True == 1] and [False == 0]. *)
Definition eq_int (x : json) (n : Z) : bool :=
  match x with
  | JInt k => k =? n
  | JBool b => number_eq (bool_number b) (Finite n 0)
  | JFloat f => number_eq (float_number f) (Finite n 0)
  | _ => false
  end.

(** The hashable JSON values, the possible members of a [set]. *)
Inductive key : Type :=
| KNone
| KBool (b : bool)
| KInt (n : Z)
| KFloat (f : pyfloat)
| KStr (s : string).

(** [hash(x)] succeeds on every value but a [list] or a [dict]. *)
Definition hashable (x : json) : result key :=
  match x with
  | JNull => Ok KNone
  | JBool b => Ok (KBool b)
  | JInt n => Ok (KInt n)
  | JFloat f => Ok (KFloat f)
  | JStr s => Ok (KStr s)
  | JArr _ | JObj _ => Raise TypeError
  end.

Definition key_number (k : key) : option number :=
  match k with
  | KBool b => Some (bool_number b)
  | KInt n => Some (Finite n 0)
  | KFloat f => Some (float_number f)
  | KNone | KStr _ => None
  end.

(** [a == b] on hashable values: numbers by value, strings by content,
    [None] only to itself. *)
Definition key_eq (a b : key) : bool :=
  match key_number a, key_number b with
  | Some x, Some y => number_eq x y
  | None, None =>
      match a, b with
      | KNone, KNone => true
      | KStr s, KStr t => String.eqb s t
      | _, _ => false
      end
  | _, _ => false
  end.

(** A [set] of hashable values: no two members are equal. *)
Definition pyset : Type := list key.

(** [k in s] *)
Definition set_mem (k : key) (s : pyset) : bool := existsb (key_eq k) s.

(** [s.add(k)] *)
Definition set_add (k : key) (s : pyset) : pyset :=
  if set_mem k s then s else s ++ [k].

(* ================================================================== *)
(** * The world: files and standard output *)
(* ================================================================== *)

(** A path is its text, and [Path(text)] is that text.  A file that
    holds a scene is identified with the document [json.load] reads from
    it and [json.dump] writes to it; the top level of a scene document
    is a JSON object.  Files that do not hold JSON and failures of the
    file system are outside the model. *)
Definition Path : Type := string.

(** One constructor for each [print] of the two scripts, with the values
    it interpolates. *)
Inductive msg : Type :=
(* expand_tilemap.py *)
| MsgEntityNotFound
| MsgExpectedTiles (expected found : Z)
| MsgExpanded (old_width old_height new_width new_height : Z)
| MsgTileCount (before after : Z)
| MsgExpandSucceeded
| MsgExpandFailed
(* cleanup_colliders.py *)
| MsgCleaningUp (scene_path : Path)
| MsgFoundCollider (entity_id entity_name : json)
| MsgTotalFound (count : Z)
| MsgNothingToClean
| MsgCleanedSection (section_name : string) (removed_count : Z)
| MsgCreatedBackup (backup_path : Path)
| MsgCleanupComplete (sections_cleaned : Z)
| MsgRemovedEntities (count : Z)
| MsgBlankAndRule60
| MsgRule60
| MsgGuideTitle
| MsgGuideSteps
| MsgUsage
| MsgUsageExample
| MsgSceneNotFound (scene_path : Path)
| MsgNotJsonFile (scene_path : Path)
| MsgToolTitle
| MsgRule40
| MsgPrompt
| MsgCompleted
| MsgNextStep
| MsgCancelled.

Record world : Type := World {
  files : Path -> option dict;
  stdin : list string;   (* the lines the operator will type *)
  stdout : list msg
}.

(** Computations that read and change the world and may raise. *)
Definition M (A : Type) : Type := world -> result A * world.

Definition ret {A} (a : A) : M A := fun w => (Ok a, w).

Definition bind {A B} (m : M A) (k : A -> M B) : M B :=
  fun w =>
    match m w with
    | (Ok a, w') => k a w'
    | (Raise e, w') => (Raise e, w')
    end.

Definition lift {A} (r : result A) : M A := fun w => (r, w).

Definition raise {A} (e : exn) : M A := fun w => (Raise e, w).

Notation "x <- m ;; k" := (bind m (fun x => k))
  (at level 61, m at next level, right associativity).
Notation "m ;; k" := (bind m (fun _ => k))
  (at level 61, right associativity).

(** [print(...)] *)
Definition print (m : msg) : M unit :=
  fun w => (Ok tt, World (files w) (stdin w) (stdout w ++ [m])).

(** [with open(p, 'r') as f: json.load(f)] *)
Definition read_json (p : Path) : M dict :=
  fun w =>
    match files w p with
    | Some d => (Ok d, w)
    | None => (Raise FileNotFoundError, w)
    end.

(** [with open(p, 'w') as f: json.dump(d, f, indent=2)] *)
Definition write_json (p : Path) (d : dict) : M unit :=
  fun w =>
    (Ok tt, World (fun q => if String.eqb q p then Some d else files w q)
                  (stdin w) (stdout w)).

(** [p.exists()] *)
Definition path_exists (p : Path) : M bool :=
  fun w => (Ok (match files w p with Some _ => true | None => false end), w).

(** [input(prompt)]: writes the prompt, then reads one line. *)
Definition input (prompt : msg) : M string :=
  fun w =>
    match stdin w with
    | line :: more => (Ok line, World (files w) more (stdout w ++ [prompt]))
    | [] => (Raise EOFError, World (files w) [] (stdout w ++ [prompt]))
    end.

(** [sys.exit(code)] *)
Definition sys_exit {A} (code : Z) : M A := raise (SystemExit code).

(** The exit status of the process that runs [m] as its main program:
    0 when it returns, the code of [sys.exit], 1 after the traceback of
    any other exception. *)
Definition run {A} (m : M A) (w : world) : Z * world :=
  match m w with
  | (Ok _, w') => (0, w')
  | (Raise (SystemExit code), w') => (code, w')
  | (Raise _, w') => (1, w')
  end.

(** The world after [messages] were printed and nothing else
    happened. *)
Definition printed (w : world) (messages : list msg) : world :=
  World (files w) (stdin w) (stdout w ++ messages).

(** Whatever its outcome, the computation leaves the files and the
    pending input alone. *)
Definition only_prints {A} (m : M A) : Prop :=
  forall w outcome w', m w = (outcome, w') ->
                       exists messages, w' = printed w messages.

(** [for x in xs: acc = body(x, acc)] for a body without effects on the
    world. *)
Fixpoint for_in {A S} (xs : list A) (body : A -> S -> result S) (acc : S)
  : result S :=
  match xs with
  | [] => Ok acc
  | x :: xs' => let? acc' := body x acc in for_in xs' body acc'
  end.

(** The same loop for a body that prints. *)
Fixpoint for_in_M {A S} (xs : list A) (body : A -> S -> M S) (acc : S)
  : M S :=
  match xs with
  | [] => ret acc
  | x :: xs' => acc' <- body x acc ;; for_in_M xs' body acc'
  end.

(* ================================================================== *)
(** * The Tile Expander ([expand_tilemap.py]) *)
(* ================================================================== *)

Module TileExpander.

(** The loop that looks for the tilemap of entity 315, with its [break].
    [tilemap_entity] stays [None] when no entry matches; otherwise it is
    the object at [tilemap_data[1]] of the first match, returned with the
    position of that entry so that the later assignments through
    [tilemap_entity] can be written back where the object lives. *)
Fixpoint find_tilemap (i : nat) (entries : list json)
  : result (option (nat * json)) :=
  match entries with
  | [] => Ok None
  | tilemap_data :: rest =>
      let? entity_id := getitem tilemap_data 0 in
      if eq_int entity_id 315 then
        let? tilemap_entity := getitem tilemap_data 1 in
        Ok (Some (i, tilemap_entity))
      else find_tilemap (S i) rest
  end.

(** The body of the inner loop: the copy of the source tile of cell
    [(x, y)]. *)
Definition copy_tile (existing_tiles : json) (old_width old_height x y : Z)
  : result json :=
  let? orig_x := py_mod x old_width in
  let? orig_y := py_mod y old_height in
  let orig_index := orig_y * old_width + orig_x in
  let? original_tile := getitem existing_tiles orig_index in
  copy original_tile.

(** The two nested loops that fill [new_tiles]. *)
Definition build_tiles (existing_tiles : json)
    (old_width old_height new_width new_height : Z) : result (list json) :=
  for_in (range new_height)
    (fun y new_tiles =>
       for_in (range new_width)
         (fun x new_tiles =>
            let? tile := copy_tile existing_tiles old_width old_height x y in
            Ok (new_tiles ++ [tile]))
         new_tiles)
    [].

(** [x[key] = v] for a string key: only a [dict] accepts it. *)
Definition setitem_method (x : json) (key : string) (v : json) : result json :=
  match x with
  | JObj d => Ok (JObj (setitem key v d))
  | _ => Raise TypeError
  end.

(** The scene after [tilemap_entity], the object at
    [scene['tilemaps'][i][1]], became [entity].  After a search that
    found entry [i] the tilemaps section is a list and that entry a list
    of two elements or more (lemma [search_finds_target]). *)
Definition store_entity (i : nat) (entity : json) (scene : dict) : dict :=
  match lookup "tilemaps" scene with
  | Some (JArr entries) =>
      match nth_error entries i with
      | Some (JArr (entity_id :: _ :: more)) =>
          setitem "tilemaps"
            (JArr (list_set i (JArr (entity_id :: entity :: more)) entries))
            scene
      | _ => scene
      end
  | _ => scene
  end.

Definition expand_tilemap (scene_file : Path)
    (old_width old_height new_width new_height : Z) : M bool :=
  scene <- read_json scene_file ;;
  entries <- lift (iterate (get_default "tilemaps" (JArr []) scene)) ;;
  found <- lift (find_tilemap 0 entries) ;;
  match found with
  | None => print MsgEntityNotFound ;; ret false
  | Some (i, tilemap_entity) =>
      if negb (truthy tilemap_entity) then
        print MsgEntityNotFound ;; ret false
      else
        existing_tiles <- lift (get_method tilemap_entity "tiles" (JArr [])) ;;
        count <- lift (len existing_tiles) ;;
        if negb (count =? old_width * old_height) then
          print (MsgExpectedTiles (old_width * old_height) count) ;; ret false
        else
          new_tiles <- lift (build_tiles existing_tiles old_width old_height
                                         new_width new_height) ;;
          e1 <- lift (setitem_method tilemap_entity "tiles" (JArr new_tiles)) ;;
          e2 <- lift (setitem_method e1 "width" (JInt new_width)) ;;
          e3 <- lift (setitem_method e2 "height" (JInt new_height)) ;;
          print (MsgExpanded old_width old_height new_width new_height) ;;
          print (MsgTileCount count (Z.of_nat (List.length new_tiles))) ;;
          write_json scene_file (store_entity i e3 scene) ;;
          ret true
  end.

Definition scene_file : Path := "projects/Celeste Demo/scenes/main.json".

(** The [__main__] block: the defaults of [expand_tilemap] are 10, 10,
    20, 20. *)
Definition main : M unit :=
  ok <- expand_tilemap scene_file 10 10 20 20 ;;
  if ok then print MsgExpandSucceeded
  else (print MsgExpandFailed ;; sys_exit 1).

(* ------------------------------------------------------------------ *)
(** ** The target tilemap of a scene, for the statements below *)

(** The search passes over [entry]: it has a first element, which is not
    315. *)
Definition skipped (entry : json) : bool :=
  match getitem entry 0 with
  | Ok entity_id => negb (eq_int entity_id 315)
  | Raise _ => false
  end.

(** The tilemaps section of [scene] is the list
    [before ++ [[entity_id, data, more...]] ++ after], where [entity_id]
    is 315 and no entry of [before] has that identifier: [data] is the
    tilemap data of entity 315. *)
Definition target_at (scene : dict) (before : list json)
    (entity_id data : json) (more after : list json) : Prop :=
  lookup "tilemaps" scene
    = Some (JArr (before ++ JArr (entity_id :: data :: more) :: after))
  /\ forallb skipped before = true
  /\ eq_int entity_id 315 = true.

(** No entry of the tilemaps section has identifier 315: the section is
    absent, or it is a list and the search passes over every entry. *)
Definition no_entity_315 (scene : dict) : Prop :=
  lookup "tilemaps" scene = None
  \/ exists entries,
       lookup "tilemaps" scene = Some (JArr entries)
       /\ forallb skipped entries = true.

(** The tiles of a tilemap: its [tiles] field, no tiles without one. *)
Definition tiles_of (fields : dict) : json :=
  get_default "tiles" (JArr []) fields.

(** The tilemap data after the three assignments. *)
Definition expanded_fields (fields : dict) (new_tiles : list json)
    (new_width new_height : Z) : dict :=
  setitem "height" (JInt new_height)
    (setitem "width" (JInt new_width)
       (setitem "tiles" (JArr new_tiles) fields)).

(** The world after a successful expansion of the tilemap [fields]
    into [new_tiles]. *)
Definition expanded_world (w : world) (scene_file : Path) (scene : dict)
    (before : list json) (entity_id : json) (fields : dict)
    (more after new_tiles : list json)
    (old_width old_height new_width new_height : Z) : world :=
  World
    (fun q =>
       if String.eqb q scene_file then
         Some (setitem "tilemaps"
                 (JArr (before
                        ++ JArr (entity_id
                                 :: JObj (expanded_fields fields new_tiles
                                            new_width new_height)
                                 :: more) :: after))
                 scene)
       else files w q)
    (stdin w)
    (stdout w ++ [MsgExpanded old_width old_height new_width new_height;
                  MsgTileCount (old_width * old_height)
                               (Z.of_nat (List.length new_tiles))]).

End TileExpander.

(* ================================================================== *)
(** * The Collider Cleaner ([cleanup_colliders.py]) *)
(* ================================================================== *)

Module ColliderCleaner.

(* ------------------------------------------------------------------ *)
(** ** The [str] and [pathlib] operations it calls *)

Definition code (c : ascii) : Z := Z.of_N (N_of_ascii c).

(** [c.isspace()] on the code points 0..255. *)
Definition is_space (c : ascii) : bool :=
  let n := code c in
  ((9 <=? n) && (n <=? 13)) || ((28 <=? n) && (n <=? 32))
  || (n =? 133) || (n =? 160).

(** [c.lower()] on the code points 0..255: [A-Z] and the capital letters
    of Latin-1 are 32 below their small letters. *)
Definition lower_char (c : ascii) : ascii :=
  let n := code c in
  if ((65 <=? n) && (n <=? 90))
     || ((192 <=? n) && (n <=? 222) && negb (n =? 215))
  then ascii_of_N (Z.to_N (n + 32))
  else c.

Fixpoint lower (s : string) : string :=
  match s with
  | EmptyString => EmptyString
  | String c s' => String (lower_char c) (lower s')
  end.

Fixpoint lstrip (s : string) : string :=
  match s with
  | EmptyString => EmptyString
  | String c s' => if is_space c then lstrip s' else s
  end.

Fixpoint rstrip (s : string) : string :=
  match s with
  | EmptyString => EmptyString
  | String c s' =>
      match rstrip s' with
      | EmptyString => if is_space c then EmptyString else String c EmptyString
      | r => String c r
      end
  end.

(** [s.strip()] *)
Definition strip (s : string) : string := rstrip (lstrip s).

(** [s.rpartition(c)] without the middle: the text before the last [c]
    and the text from it on, [None] when [c] does not occur. *)
Fixpoint rsplit (c : ascii) (s : string) : option (string * string) :=
  match s with
  | EmptyString => None
  | String a s' =>
      match rsplit c s' with
      | Some (before, rest) => Some (String a before, rest)
      | None => if Ascii.eqb a c then Some (EmptyString, s) else None
      end
  end.

(** [p.name]: the last component of the path. *)
Definition name (p : Path) : string :=
  match rsplit "/" p with
  | Some (_, String _ last) => last
  | _ => p
  end.

(** [p.suffix]: the name from its last dot on, when that dot is neither
    the first nor the last character of the name. *)
Definition suffix (p : Path) : string :=
  match rsplit "." (name p) with
  | Some (stem, ext) =>
      if String.eqb stem "" || String.eqb ext "." then "" else ext
  | None => ""
  end.

(** [p.with_suffix(new)]: the path with [new] in the place of its
    suffix. *)
Definition with_suffix (p : Path) (new : string) : Path :=
  let keep := (String.length p - String.length (suffix p))%nat in
  (substring 0 keep p ++ new)%string.

(* ------------------------------------------------------------------ *)
(** ** [cleanup_scene_colliders] *)

(** [d[key]] *)
Definition getkey (key : string) (d : dict) : result json :=
  match lookup key d with
  | Some v => Ok v
  | None => Raise KeyError
  end.

(** [name.startswith('CompositeCollider') or name.startswith('Collider_')] *)
Definition is_collider_name (entity_name : json) : result bool :=
  let? composite := startswith entity_name "CompositeCollider" in
  if composite then Ok true else startswith entity_name "Collider_".

(** The body of the loop over [scene_data['names']]. *)
Definition scan_name (name_entry : json) (collider_entities : pyset)
  : M pyset :=
  entity_id <- lift (getitem name_entry 0) ;;
  entity_name <- lift (getitem name_entry 1) ;;
  is_collider <- lift (is_collider_name entity_name) ;;
  if is_collider then
    k <- lift (hashable entity_id) ;;
    print (MsgFoundCollider entity_id entity_name) ;;
    ret (set_add k collider_entities)
  else ret collider_entities.

(** The body of the loop over the entries of one section. *)
Definition filter_entry (collider_entities : pyset) (entry : json)
    (filtered_data : list json) : result (list json) :=
  match entry with
  | JArr (entity_id :: _) =>
      let? k := hashable entity_id in
      if negb (set_mem k collider_entities) then Ok (filtered_data ++ [entry])
      else Ok filtered_data
  | _ => Ok (filtered_data ++ [entry])
  end.

(** The body of the loop over [scene_data.items()]; the state is
    [scene_data] and [sections_cleaned].  Assigning to a key that exists
    does not disturb the iteration. *)
Definition clean_section (collider_entities : pyset)
    (item : string * json) (state : dict * Z) : M (dict * Z) :=
  let (section_name, section_data) := item in
  let (scene_data, sections_cleaned) := state in
  match section_data with
  | JArr entries =>
      let original_count := Z.of_nat (List.length entries) in
      filtered_data <- lift (for_in entries (filter_entry collider_entities) []) ;;
      let filtered_count := Z.of_nat (List.length filtered_data) in
      if negb (filtered_count =? original_count) then
        print (MsgCleanedSection section_name
                 (original_count - filtered_count)) ;;
        ret (setitem section_name (JArr filtered_data) scene_data,
             sections_cleaned + 1)
      else ret state
  | _ => ret state
  end.

(** The block [# Find collider entities by name]. *)
Definition find_collider_entities (scene_data : dict) : M pyset :=
  if contains "names" scene_data then
    names <- lift (let? v := getkey "names" scene_data in iterate v) ;;
    for_in_M names scan_name []
  else ret [].

(** The block [# Remove collider entities from all sections]: the loop
    over [scene_data.items()], which yields the document and
    [sections_cleaned]. *)
Definition remove_collider_entities (collider_entities : pyset)
    (scene_data : dict) : M (dict * Z) :=
  for_in_M scene_data (clean_section collider_entities) (scene_data, 0).

Definition cleanup_scene_colliders (scene_path : Path) : M unit :=
  print (MsgCleaningUp scene_path) ;;
  scene_data <- read_json scene_path ;;
  collider_entities <- find_collider_entities scene_data ;;
  print (MsgTotalFound (Z.of_nat (List.length collider_entities))) ;;
  match collider_entities with
  | [] => print MsgNothingToClean
  | _ :: _ =>
      cleaned <- remove_collider_entities collider_entities scene_data ;;
      let (scene_data', sections_cleaned) := cleaned : dict * Z in
      let backup_path := with_suffix scene_path ".json.backup" in
      write_json backup_path scene_data' ;;
      print (MsgCreatedBackup backup_path) ;;
      write_json scene_path scene_data' ;;
      print (MsgCleanupComplete sections_cleaned) ;;
      print (MsgRemovedEntities (Z.of_nat (List.length collider_entities)))
  end.

Definition show_migration_guide : M unit :=
  print MsgBlankAndRule60 ;;
  print MsgGuideTitle ;;
  print MsgRule60 ;;
  print MsgGuideSteps.

(** [main], with [sys.argv] as its argument; [Path(sys.argv[1])] is the
    text of the argument. *)
Definition main (argv : list string) : M unit :=
  if negb (Z.of_nat (List.length argv) =? 2) then
    print MsgUsage ;; print MsgUsageExample ;; sys_exit 1
  else
    let scene_path : Path := nth 1 argv "" in
    found <- path_exists scene_path ;;
    if negb found then
      print (MsgSceneNotFound scene_path) ;; sys_exit 1
    else if negb (String.eqb (suffix scene_path) ".json") then
      print (MsgNotJsonFile scene_path) ;; sys_exit 1
    else
      print MsgToolTitle ;;
      print MsgRule40 ;;
      show_migration_guide ;;
      print MsgBlankAndRule60 ;;
      line <- input MsgPrompt ;;
      let response := lower (strip line) in
      if String.eqb response "y" || String.eqb response "yes" then
        cleanup_scene_colliders scene_path ;;
        print MsgCompleted ;;
        print MsgNextStep
      else print MsgCancelled.

(* ------------------------------------------------------------------ *)
(** ** Collider entities and cleaned documents, for the statements below *)

(** The names entry [[entity_id, name, ...]] names a collider entity:
    its name starts with one of the two prefixes. *)
Definition has_collider_name (name_entry : json) : bool :=
  match name_entry with
  | JArr (_ :: JStr entity_name :: _) =>
      String.prefix "CompositeCollider" entity_name
      || String.prefix "Collider_" entity_name
  | _ => false
  end.

(** The identifier of a collider entity, as a member of a [set]. *)
Definition collider_key (name_entry : json) : option key :=
  match name_entry with
  | JArr (entity_id :: _) =>
      if has_collider_name name_entry then
        match hashable entity_id with
        | Ok k => Some k
        | Raise _ => None
        end
      else None
  | _ => None
  end.

Fixpoint collider_keys (names : list json) : list key :=
  match names with
  | [] => []
  | name_entry :: rest =>
      match collider_key name_entry with
      | Some k => k :: collider_keys rest
      | None => collider_keys rest
      end
  end.

(** The identifiers of the collider entities of a scene: those of the
    entries of its names list that name a collider. *)
Definition identified (scene : dict) : list key :=
  match lookup "names" scene with
  | Some (JArr names) => collider_keys names
  | _ => []
  end.

(** [entry] is a list whose first element is one of [ids]. *)
Definition refers_to (ids : list key) (entry : json) : bool :=
  match entry with
  | JArr (first :: _) =>
      match hashable first with
      | Ok k => set_mem k ids
      | Raise _ => false
      end
  | _ => false
  end.

(** The entries the removal pass keeps: those that are not lists, the
    empty lists, and the lists whose first element is not in [ids]. *)
Definition retained (ids : list key) (entry : json) : bool :=
  negb (refers_to ids entry).

(** A section after the removal pass. *)
Definition clean_value (ids : list key) (section_data : json) : json :=
  match section_data with
  | JArr entries => JArr (filter (retained ids) entries)
  | _ => section_data
  end.

(** The names section is absent, or it is a list of pairs
    [[entity_id, name, ...]] none of which names a collider. *)
Definition plain_name_entry (name_entry : json) : bool :=
  match name_entry with
  | JArr (_ :: JStr _ :: _) => negb (has_collider_name name_entry)
  | _ => false
  end.

Definition no_collider_names (scene : dict) : Prop :=
  lookup "names" scene = None
  \/ exists names,
       lookup "names" scene = Some (JArr names)
       /\ forallb plain_name_entry names = true.

(** The scene after the removal pass over every section. *)
Definition clean_item (ids : list key) (item : string * json)
  : string * json :=
  (fst item, clean_value ids (snd item)).

Definition clean_scene (ids : list key) (scene : dict) : dict :=
  map (clean_item ids) scene.

(** The path of the backup file. *)
Definition backup_of (scene_path : Path) : Path :=
  with_suffix scene_path ".json.backup".

(** The files after the backup and the scene were written. *)
Definition files_after_cleanup (w : world) (scene_path : Path)
    (cleaned : dict) : Path -> option dict :=
  fun q =>
    if String.eqb q scene_path then Some cleaned
    else if String.eqb q (backup_of scene_path) then Some cleaned
    else files w q.

(** Scenes of the shape the data model describes: every names entry is
    a pair of a hashable identifier and a name, and every entry of a
    list section that is a non-empty list starts with a hashable
    value. *)
Definition name_entry_ok (name_entry : json) : bool :=
  match name_entry with
  | JArr (entity_id :: JStr _ :: _) =>
      match hashable entity_id with
      | Ok _ => true
      | Raise _ => false
      end
  | _ => false
  end.

Definition names_ok (scene : dict) : Prop :=
  lookup "names" scene = None
  \/ exists names,
       lookup "names" scene = Some (JArr names)
       /\ forallb name_entry_ok names = true.

Definition entry_ok (entry : json) : bool :=
  match entry with
  | JArr (first :: _) =>
      match hashable first with
      | Ok _ => true
      | Raise _ => false
      end
  | _ => true
  end.

Definition section_ok (item : string * json) : bool :=
  match snd item with
  | JArr entries => forallb entry_ok entries
  | _ => true
  end.

(** What the tool prints before it asks for confirmation. *)
Definition preamble : list msg :=
  [MsgToolTitle; MsgRule40; MsgBlankAndRule60; MsgGuideTitle; MsgRule60;
   MsgGuideSteps; MsgBlankAndRule60; MsgPrompt].

End ColliderCleaner.

(* ================================================================== *)
(** * Sample scenes *)
(* ================================================================== *)

Module Examples.

Definition tile (n : Z) : json := JObj [("tile_id", JInt n)].

(** A world whose only file is [scene] at [p], with the lines the
    operator will type. *)
Definition world_with (p : Path) (scene : dict) (typed : list string)
  : world :=
  World (fun q => if String.eqb q p then Some scene else None) typed [].

(** The tilemap of entity 315 is 2 wide and 1 high; another tilemap
    comes before it. *)
Definition strip_fields : dict :=
  [("width", JInt 2); ("tiles", JArr [tile 0; tile 1]);
   ("height", JInt 1); ("layer", JStr "ground")].

Definition strip_scene : dict :=
  [("names", JArr [JArr [JInt 315; JStr "Grid"]]);
   ("tilemaps", JArr [JArr [JInt 7; JObj [("tiles", JArr [])]];
                      JArr [JInt 315; JObj strip_fields]])].

(** The tilemap of entity 315 is 2 by 2. *)
Definition square_fields : dict :=
  [("tiles", JArr [tile 0; tile 1; tile 2; tile 3]);
   ("width", JInt 2); ("height", JInt 2)].

Definition square_scene : dict :=
  [("tilemaps", JArr [JArr [JInt 315; JObj square_fields]])].

(** A 10 by 10 tilemap for entity 315, as the defaults of the Tile
    Expander expect it. *)
Definition ten_fields : dict :=
  [("tiles", JArr (map tile (range 100)));
   ("width", JInt 10); ("height", JInt 10)].

Definition ten_scene : dict :=
  [("tilemaps", JArr [JArr [JInt 315; JObj ten_fields]])].

(** Entity 315 is listed, with an empty data mapping. *)
Definition hollow_scene : dict :=
  [("tilemaps", JArr [JArr [JInt 7; JObj strip_fields];
                      JArr [JInt 315; JObj []]])].

(** No tilemap belongs to entity 315. *)
Definition other_scene : dict :=
  [("tilemaps", JArr [JArr [JInt 7; JObj strip_fields]])].

(** The example of the specification: entity 1 is a collider, entity 2
    is the player. *)
Definition collider_scene : dict :=
  [("names", JArr [JArr [JInt 1; JStr "CompositeCollider_A"];
                   JArr [JInt 2; JStr "Player"]]);
   ("bodies", JArr [JArr [JInt 1; JObj [("mass", JInt 1)]];
                    JArr [JInt 2; JObj [("mass", JInt 5)]]]);
   ("version", JInt 3)].

(** The same scene after the removal pass. *)
Definition collider_scene_cleaned : dict :=
  [("names", JArr [JArr [JInt 2; JStr "Player"]]);
   ("bodies", JArr [JArr [JInt 2; JObj [("mass", JInt 5)]]]);
   ("version", JInt 3)].

(** A scene without collider entities. *)
Definition plain_scene : dict :=
  [("names", JArr [JArr [JInt 2; JStr "Player"];
                   JArr [JInt 3; JStr "Camera"]]);
   ("bodies", JArr [JArr [JInt 2; JObj [("mass", JInt 5)]]])].

End Examples.

(* ================================================================== *)
(** * More sample scenes *)
(* ================================================================== *)

Module Scenarios.

Import Examples.

(** The tiles of entity 315 are numbers, not records. *)
Definition numbers_scene : dict :=
  [("tilemaps",
    JArr [JArr [JInt 315;
                JObj [("tiles", JArr [JInt 0; JInt 1]);
                      ("width", JInt 2); ("height", JInt 1)]]])].

(** A tilemap without tiles and of width 0. *)
Definition empty_scene : dict :=
  [("tilemaps",
    JArr [JArr [JInt 315; JObj [("width", JInt 0); ("height", JInt 0)]]])].

(** The data of entity 315 is a list, not a mapping. *)
Definition list_data_scene : dict :=
  [("tilemaps", JArr [JArr [JInt 315; JArr [tile 0]]])].

(** An entry of [bodies] starts with a list. *)
Definition nested_id_scene : dict :=
  [("names", JArr [JArr [JInt 1; JStr "Collider_1"]]);
   ("bodies", JArr [JArr [JArr [JInt 1]; JObj []]])].

(** The second names entry has no name. *)
Definition short_name_scene : dict :=
  [("names", JArr [JArr [JInt 1; JStr "Collider_1"]; JArr [JInt 2]])].

(** The name of entity 2 is a number. *)
Definition numeric_name_scene : dict :=
  [("names", JArr [JArr [JInt 1; JStr "Player"]; JArr [JInt 2; JInt 7]])].

End Scenarios.

(* ================================================================== *)
(** * The reports of the removal pass *)
(* ================================================================== *)

Module Reports.

Import ColliderCleaner.

(** How many entries of a section the removal pass drops. *)
Definition removed_count (ids : list key) (entries : list json) : Z :=
  Z.of_nat (List.length entries)
  - Z.of_nat (List.length (filter (retained ids) entries)).



End Reports.

(* ================================================================== *)
(** * Facts about lists, loops and dictionaries *)
(* ================================================================== *)

Section ListFacts.

Context {A B : Type}.

Lemma Forall2_nth_error_left (P : A -> B -> Prop) l l' k a :
  Forall2 P l l' -> nth_error l k = Some a ->
  exists b, nth_error l' k = Some b /\ P a b.
Proof.
  intros H; revert k; induction H as [|x y l l' Hxy _ IH]; intros [|k] Hk;
    simpl in *; try discriminate.
  - injection Hk as ->. eauto.
  - eauto.
Qed.

Lemma Forall2_same_length (P : A -> B -> Prop) l l' :
  Forall2 P l l' -> List.length l' = List.length l.
Proof. induction 1; simpl; congruence. Qed.

(** In a concatenation of rows of one width, cell [x] of row [y] is at
    position [y * width + x]. *)
Lemma nth_error_concat_rows (rows : list (list A)) (width x y : nat) row :
  Forall (fun r => List.length r = width) rows ->
  nth_error rows y = Some row -> (x < width)%nat ->
  nth_error (List.concat rows) (y * width + x) = nth_error row x.
Proof.
  intros Hrows; revert y; induction Hrows as [|r rows Hr _ IH];
    intros [|y] Hy Hx; simpl in *; try discriminate.
  - injection Hy as ->. apply nth_error_app1. lia.
  - rewrite nth_error_app2 by lia.
    replace (width + y * width + x - List.length r)%nat
      with (y * width + x)%nat by lia.
    auto.
Qed.

Lemma length_concat_rows (rows : list (list A)) (width : nat) :
  Forall (fun r => List.length r = width) rows ->
  List.length (List.concat rows) = (List.length rows * width)%nat.
Proof.
  induction 1 as [|r rows Hr _ IH]; simpl; [reflexivity|].
  rewrite length_app, IH, Hr. reflexivity.
Qed.

(** A filter that keeps the length keeps every element. *)
Lemma filter_same_length (keep : A -> bool) l :
  List.length (filter keep l) = List.length l -> filter keep l = l.
Proof.
  induction l as [|a l IH]; simpl; [reflexivity|].
  pose proof (filter_length_le keep l) as Hle.
  destruct (keep a); simpl; intros Hlen.
  - f_equal. apply IH. lia.
  - lia.
Qed.




End ListFacts.

Section RangeFacts.

Lemma range_length n : List.length (range n) = Z.to_nat n.
Proof. unfold range. now rewrite length_map, length_seq. Qed.

Lemma range_nth n k :
  0 <= k < n -> nth_error (range n) (Z.to_nat k) = Some k.
Proof.
  intros Hk. unfold range.
  rewrite nth_error_map, nth_error_seq.
  assert (Hlt : (Z.to_nat k <? Z.to_nat n)%nat = true)
    by (apply Nat.ltb_lt; lia).
  rewrite Hlt. simpl. f_equal. lia.
Qed.

End RangeFacts.

Section LoopFacts.

Context {A B : Type}.

(** A loop that appends one computed element per step yields the
    accumulator followed by the elements, in order. *)
Lemma for_in_append (f : A -> result B) xs :
  forall acc out,
    for_in xs (fun x acc => let? t := f x in Ok (acc ++ [t])) acc = Ok out ->
    exists ts, out = acc ++ ts /\ Forall2 (fun x t => f x = Ok t) xs ts.
Proof.
  induction xs as [|x xs IH]; simpl; intros acc out H.
  - injection H as <-. exists []. rewrite app_nil_r. auto.
  - destruct (f x) as [t|e] eqn:Hfx; simpl in H; [|discriminate].
    apply IH in H as (ts & -> & Hts).
    exists (t :: ts). rewrite <- app_assoc. auto.
Qed.

(** The converse: when every element is computed, the loop returns. *)
Lemma for_in_append_total (f : A -> result B) xs ts :
  Forall2 (fun x t => f x = Ok t) xs ts ->
  forall acc,
    for_in xs (fun x acc => let? t := f x in Ok (acc ++ [t])) acc
    = Ok (acc ++ ts).
Proof.
  induction 1 as [|x t xs ts Hx _ IH]; simpl; intros acc.
  - now rewrite app_nil_r.
  - rewrite Hx. simpl. rewrite IH, <- app_assoc. reflexivity.
Qed.

(** Two nested appending loops yield the rows one after the other. *)
Lemma for_in_rows {C : Type} (g : C -> A -> result B) xs ys :
  forall acc out,
    for_in ys
      (fun y acc =>
         for_in xs (fun x acc => let? t := g y x in Ok (acc ++ [t])) acc)
      acc = Ok out ->
    exists rows,
      out = acc ++ List.concat rows
      /\ Forall2 (fun y row => Forall2 (fun x t => g y x = Ok t) xs row)
                 ys rows.
Proof.
  induction ys as [|y ys IH]; simpl; intros acc out H.
  - injection H as <-. exists []. simpl. rewrite app_nil_r. auto.
  - destruct (for_in xs _ acc) as [acc'|e] eqn:Hrow; simpl in H;
      [|discriminate].
    apply for_in_append in Hrow as (row & -> & Hrow).
    apply IH in H as (rows & -> & Hrows).
    exists (row :: rows). simpl. rewrite <- app_assoc. auto.
Qed.

Lemma for_in_rows_total {C : Type} (g : C -> A -> result B) xs ys rows :
  Forall2 (fun y row => Forall2 (fun x t => g y x = Ok t) xs row) ys rows ->
  forall acc,
    for_in ys
      (fun y acc =>
         for_in xs (fun x acc => let? t := g y x in Ok (acc ++ [t])) acc)
      acc = Ok (acc ++ List.concat rows).
Proof.
  induction 1 as [|y row ys rows Hrow _ IH]; simpl; intros acc.
  - now rewrite app_nil_r.
  - rewrite (for_in_append_total _ _ _ Hrow). simpl.
    rewrite IH, <- app_assoc. reflexivity.
Qed.

End LoopFacts.

Section EqualityFacts.

(** Two scaled values are equal at one common scale exactly when they
    are at the finest. *)
Lemma scaled_eq_iff a e b e' m :
  m <= e -> m <= e' ->
  (a * 2 ^ (e - m) = b * 2 ^ (e' - m)
   <-> a * 2 ^ (e - Z.min e e') = b * 2 ^ (e' - Z.min e e')).
Proof.
  intros He He'.
  set (mn := Z.min e e').
  assert (Hmn : m <= mn <= e /\ mn <= e') by (unfold mn; lia).
  replace (e - m) with ((e - mn) + (mn - m)) by lia.
  replace (e' - m) with ((e' - mn) + (mn - m)) by lia.
  rewrite !Z.pow_add_r by lia.
  rewrite !Z.mul_assoc.
  assert (Hpos : 2 ^ (mn - m) <> 0) by (apply Z.pow_nonzero; lia).
  split; intros H.
  - now apply Z.mul_cancel_r in H.
  - now rewrite H.
Qed.

Lemma number_eq_refl x : number_eq x x = true.
Proof.
  destruct x as [a e|s]; simpl.
  - apply Z.eqb_refl.
  - apply Bool.eqb_reflx.
Qed.

Lemma number_eq_sym x y : number_eq x y = number_eq y x.
Proof.
  destruct x as [a e|s], y as [b e'|t]; simpl; auto.
  - rewrite (Z.min_comm e' e). apply Z.eqb_sym.
  - destruct s, t; reflexivity.
Qed.

Lemma number_eq_trans x y z :
  number_eq x y = true -> number_eq y z = true -> number_eq x z = true.
Proof.
  destruct x as [a e1|s], y as [b e2|t], z as [c e3|u]; simpl;
    try discriminate.
  - rewrite !Z.eqb_eq.
    set (m := Z.min e1 (Z.min e2 e3)).
    assert (Hm : m <= e1 /\ m <= e2 /\ m <= e3) by (unfold m; lia).
    rewrite <- (scaled_eq_iff a e1 b e2 m) by lia.
    rewrite <- (scaled_eq_iff b e2 c e3 m) by lia.
    rewrite <- (scaled_eq_iff a e1 c e3 m) by lia.
    congruence.
  - destruct s, t, u; simpl; congruence.
Qed.

Lemma key_eq_refl k : key_eq k k = true.
Proof.
  destruct k; unfold key_eq; simpl;
    auto using number_eq_refl, String.eqb_refl, Z.eqb_refl.
Qed.

Lemma key_eq_sym a b : key_eq a b = key_eq b a.
Proof.
  unfold key_eq.
  destruct (key_number a) as [x|] eqn:Ha, (key_number b) as [y|] eqn:Hb;
    auto using number_eq_sym.
  destruct a, b; try discriminate; auto using String.eqb_sym.
Qed.

Lemma key_eq_trans a b c :
  key_eq a b = true -> key_eq b c = true -> key_eq a c = true.
Proof.
  unfold key_eq.
  destruct (key_number a) as [x|] eqn:Ha, (key_number b) as [y|] eqn:Hb,
           (key_number c) as [z|] eqn:Hc;
    try discriminate; eauto using number_eq_trans.
  destruct a, b, c; try discriminate; auto.
  rewrite !String.eqb_eq. congruence.
Qed.

(** Membership after [add]. *)
Lemma set_mem_add k k' s :
  set_mem k (set_add k' s) = key_eq k k' || set_mem k s.
Proof.
  unfold set_add, set_mem.
  destruct (existsb (key_eq k') s) eqn:Hin.
  - destruct (key_eq k k') eqn:Hk; [|reflexivity]. simpl.
    apply existsb_exists in Hin as (y & Hy & Hky).
    apply existsb_exists. exists y. eauto using key_eq_trans.
  - rewrite existsb_app. simpl. rewrite orb_false_r. apply orb_comm.
Qed.


End EqualityFacts.

Section DictFacts.

Lemma lookup_setitem_same k v d : lookup k (setitem k v d) = Some v.
Proof.
  induction d as [|[k' w] d IH]; simpl.
  - now rewrite String.eqb_refl.
  - destruct (String.eqb k k') eqn:E; simpl; rewrite E; auto.
Qed.

Lemma lookup_setitem_other k k' v d :
  k' <> k -> lookup k' (setitem k v d) = lookup k' d.
Proof.
  intros Hne. induction d as [|[k0 w] d IH]; simpl.
  - apply String.eqb_neq in Hne. now rewrite Hne.
  - destruct (String.eqb k k0) eqn:E; simpl.
    + apply String.eqb_eq in E. subst k0.
      apply String.eqb_neq in Hne. now rewrite Hne.
    + now rewrite IH.
Qed.

(** Assigning to a key that exists keeps the keys and their order. *)
Lemma setitem_keys k v d :
  lookup k d <> None -> map fst (setitem k v d) = map fst d.
Proof.
  induction d as [|[k0 w] d IH]; simpl; [congruence|].
  destruct (String.eqb k k0); simpl; intros H; [reflexivity|].
  f_equal. auto.
Qed.

Lemma contains_lookup k d : contains k d = false <-> lookup k d = None.
Proof.
  induction d as [|[k0 w] d IH]; simpl; [tauto|].
  destruct (String.eqb k k0); [split; discriminate|exact IH].
Qed.

End DictFacts.

Section SearchFacts.

Import TileExpander.

(** The search passes over the entries it skips. *)
Lemma find_tilemap_skip before rest :
  forallb skipped before = true ->
  forall i,
    find_tilemap i (before ++ rest)
    = find_tilemap (i + List.length before) rest.
Proof.
  induction before as [|e before IH]; simpl; intros H i.
  - f_equal. lia.
  - apply andb_prop in H as [He H]. unfold skipped in He.
    destruct (getitem e 0) as [id|]; [|discriminate]. simpl.
    destruct (eq_int id 315); [discriminate|].
    rewrite IH by assumption. f_equal. lia.
Qed.

(** What the first element of an entry is when it equals an integer. *)
Lemma getitem_0_eq_int entry id n :
  getitem entry 0 = Ok id -> eq_int id n = true ->
  exists rest, entry = JArr (id :: rest).
Proof.
  destruct entry as [| | | |s|l|d]; simpl; try discriminate.
  - unfold py_index. simpl.
    destruct s as [|c s]; simpl; [discriminate|].
    intros [= <-]. discriminate.
  - unfold py_index. simpl.
    destruct l as [|x l]; simpl; [discriminate|].
    intros [= <-] _. eauto.
Qed.

Lemma getitem_1_cons id rest e :
  getitem (JArr (id :: rest)) 1 = Ok e -> exists more, rest = e :: more.
Proof.
  unfold getitem, py_index. simpl.
  destruct rest as [|x more]; simpl; [discriminate|].
  intros [= <-]. eauto.
Qed.

(** What a successful search has found. *)
Lemma find_tilemap_found entries :
  forall i j data,
    find_tilemap i entries = Ok (Some (j, data)) ->
    exists before entity_id more after,
      entries = before ++ JArr (entity_id :: data :: more) :: after
      /\ forallb skipped before = true
      /\ eq_int entity_id 315 = true
      /\ j = (i + List.length before)%nat.
Proof.
  induction entries as [|e entries IH]; simpl; intros i j data H;
    [discriminate|].
  destruct (getitem e 0) as [id|] eqn:H0; simpl in H; [|discriminate].
  destruct (eq_int id 315) eqn:Hid.
  - pose proof H0 as Hshape.
    apply getitem_0_eq_int with (n := 315) in Hshape as [rest ->];
      [|assumption].
    destruct (getitem (JArr (id :: rest)) 1) as [d|] eqn:H1;
      simpl in H; [|discriminate].
    injection H as <- <-.
    apply getitem_1_cons in H1 as [more ->].
    exists [], id, more, entries. simpl. auto.
  - apply IH in H as (before & id' & more & after & -> & Hb & Hid' & ->).
    exists (e :: before), id', more, after. simpl.
    unfold skipped at 1. rewrite H0, Hid. simpl.
    repeat split; auto; lia.
Qed.

Lemma find_tilemap_target before entity_id data more after :
  forallb skipped before = true -> eq_int entity_id 315 = true ->
  find_tilemap 0 (before ++ JArr (entity_id :: data :: more) :: after)
  = Ok (Some (List.length before, data)).
Proof.
  intros Hb Hid. rewrite find_tilemap_skip by assumption. simpl.
  unfold py_index. simpl. rewrite Hid. reflexivity.
Qed.

Lemma find_tilemap_none entries :
  forallb skipped entries = true ->
  forall i, find_tilemap i entries = Ok None.
Proof.
  intros H i. rewrite <- (app_nil_r entries).
  now rewrite find_tilemap_skip.
Qed.

(** The keys of a [dict] and the characters of a [str] are strings:
    the search finds nothing among them. *)
Lemma find_tilemap_strings (l : list string) i j data :
  find_tilemap i (map JStr l) <> Ok (Some (j, data)).
Proof.
  intros H. apply find_tilemap_found in H
    as (before & id & more & after & Heq & _).
  assert (Hin : In (JArr (id :: data :: more)) (map JStr l))
    by (rewrite Heq; apply in_elt).
  apply in_map_iff in Hin as (s & Hs & _). discriminate.
Qed.

Lemma list_set_middle {A} (before : list A) x y after :
  list_set (List.length before) y (before ++ x :: after)
  = before ++ y :: after.
Proof. induction before; simpl; congruence. Qed.

End SearchFacts.

(* ================================================================== *)
(** * The Tile Expander: what a run does *)
(* ================================================================== *)

Section ExpanderRuns.

Import TileExpander.

(** A match of the search is the target tilemap of the scene. *)
Lemma search_finds_target scene entries i data :
  iterate (get_default "tilemaps" (JArr []) scene) = Ok entries ->
  find_tilemap 0 entries = Ok (Some (i, data)) ->
  exists before entity_id more after,
    target_at scene before entity_id data more after
    /\ i = List.length before.
Proof.
  unfold get_default, target_at. intros Hit Hfind.
  destruct (lookup "tilemaps" scene) as [[| | | |s|l|d]|]; simpl in Hit;
    try discriminate; injection Hit as <-.
  - exfalso. unfold chars in Hfind.
    rewrite <- (map_map (fun c => String c EmptyString) JStr) in Hfind.
    exact (find_tilemap_strings _ _ _ _ Hfind).
  - apply find_tilemap_found in Hfind
      as (before & id & more & after & -> & Hb & Hid & ->).
    exists before, id, more, after. auto.
  - exfalso.
    rewrite <- (map_map fst JStr) in Hfind.
    exact (find_tilemap_strings _ _ _ _ Hfind).
  - discriminate.
Qed.

Lemma target_search scene before entity_id data more after :
  target_at scene before entity_id data more after ->
  exists entries,
    iterate (get_default "tilemaps" (JArr []) scene) = Ok entries
    /\ find_tilemap 0 entries = Ok (Some (List.length before, data)).
Proof.
  intros (Hl & Hb & Hid). unfold get_default. rewrite Hl. simpl.
  eexists. split; [reflexivity|]. now apply find_tilemap_target.
Qed.

Lemma store_entity_target scene before entity_id data more after entity :
  target_at scene before entity_id data more after ->
  store_entity (List.length before) entity scene
  = setitem "tilemaps"
      (JArr (before ++ JArr (entity_id :: entity :: more) :: after)) scene.
Proof.
  intros (Hl & _). unfold store_entity. rewrite Hl.
  rewrite nth_error_app2, Nat.sub_diag by lia. simpl.
  now rewrite list_set_middle.
Qed.

(** A run returns [True] exactly when the scene has a target tilemap
    with a non-empty data mapping and the expected number of tiles,
    and every tile the loops read can be copied. *)
Lemma expand_tilemap_true scene_file ow oh nw nh w w' :
  expand_tilemap scene_file ow oh nw nh w = (Ok true, w') ->
  exists scene before entity_id fields more after new_tiles,
    files w scene_file = Some scene
    /\ target_at scene before entity_id (JObj fields) more after
    /\ len (tiles_of fields) = Ok (ow * oh)
    /\ build_tiles (tiles_of fields) ow oh nw nh = Ok new_tiles
    /\ w' = expanded_world w scene_file scene before entity_id fields
              more after new_tiles ow oh nw nh.
Proof.
  unfold expand_tilemap, bind, read_json, lift, ret, print, write_json.
  destruct (files w scene_file) as [scene|] eqn:Hfile; [|discriminate].
  destruct (iterate _) as [entries|] eqn:Hit; [|discriminate].
  destruct (find_tilemap 0 entries) as [[[i entity]|]|] eqn:Hfind;
    try discriminate.
  destruct (truthy entity) eqn:Htruthy; simpl; [|discriminate].
  destruct (get_method entity "tiles" (JArr [])) as [existing|] eqn:Hget;
    [|discriminate].
  destruct (len existing) as [count|] eqn:Hlen; [|discriminate].
  destruct (count =? ow * oh) eqn:Hcount; simpl; [|discriminate].
  destruct (build_tiles _ _ _ _ _) as [new_tiles|] eqn:Hbuild;
    [|discriminate].
  destruct entity as [| | | | | |fields]; try discriminate.
  simpl in Hget. injection Hget as <-.
  apply Z.eqb_eq in Hcount. subst count. simpl.
  destruct (search_finds_target _ _ _ _ Hit Hfind)
    as (before & id & more & after & Htarget & ->).
  rewrite (store_entity_target _ _ _ _ _ _ _ Htarget).
  intros [= <-].
  exists scene, before, id, fields, more, after, new_tiles.
  unfold expanded_world. rewrite <- app_assoc. simpl. auto.
Qed.

Lemma expand_tilemap_succeeds scene_file ow oh nw nh w
    scene before entity_id fields more after new_tiles :
  files w scene_file = Some scene ->
  target_at scene before entity_id (JObj fields) more after ->
  fields <> [] ->
  len (tiles_of fields) = Ok (ow * oh) ->
  build_tiles (tiles_of fields) ow oh nw nh = Ok new_tiles ->
  expand_tilemap scene_file ow oh nw nh w
  = (Ok true,
     expanded_world w scene_file scene before entity_id fields
       more after new_tiles ow oh nw nh).
Proof.
  intros Hfile Htarget Hne Hlen Hbuild.
  destruct (target_search _ _ _ _ _ _ Htarget) as (entries & Hit & Hfind).
  unfold expand_tilemap, bind, read_json, lift, ret, print, write_json.
  rewrite Hfile, Hit, Hfind.
  destruct fields as [|kv fields]; [congruence|].
  cbn [truthy negb get_method]. fold (tiles_of (kv :: fields)).
  rewrite Hlen, Z.eqb_refl. cbn [negb]. rewrite Hbuild.
  cbn [setitem_method]. rewrite (store_entity_target _ _ _ _ _ _ _ Htarget).
  unfold expanded_world, expanded_fields. cbn [files stdin stdout].
  rewrite <- app_assoc. reflexivity.
Qed.

End ExpanderRuns.

Section BuildTiles.

Import TileExpander.

Variables (existing_tiles : json) (ow oh nw nh : Z).
Variable new_tiles : list json.
Hypothesis Hbuild :
  build_tiles existing_tiles ow oh nw nh = Ok new_tiles.

(** The new array is the grid of the copied tiles, row after row. *)
Lemma build_tiles_grid :
  exists rows,
    new_tiles = List.concat rows
    /\ Forall2
         (fun y row =>
            Forall2 (fun x t => copy_tile existing_tiles ow oh x y = Ok t)
                    (range nw) row)
         (range nh) rows.
Proof.
  unfold build_tiles in Hbuild.
  apply (for_in_rows (fun y x => copy_tile existing_tiles ow oh x y))
    in Hbuild as (rows & Heq & Hrows).
  simpl in Heq. subst new_tiles.
  exists rows. auto.
Qed.

Lemma build_tiles_length :
  List.length new_tiles = (Z.to_nat nh * Z.to_nat nw)%nat.
Proof.
  destruct build_tiles_grid as (rows & -> & Hrows).
  rewrite (length_concat_rows rows (Z.to_nat nw)).
  - now rewrite (Forall2_same_length _ _ _ Hrows), range_length.
  - clear Hbuild. induction Hrows as [|y row ys rows Hrow _ IH];
      constructor; auto.
    now rewrite (Forall2_same_length _ _ _ Hrow), range_length.
Qed.

(** Cell [(x, y)] of the new grid holds the copy made for it. *)
Lemma build_tiles_cell x y :
  0 <= x < nw -> 0 <= y < nh ->
  exists tile,
    copy_tile existing_tiles ow oh x y = Ok tile
    /\ nth_error new_tiles (Z.to_nat (y * nw + x)) = Some tile.
Proof.
  intros Hx Hy.
  destruct build_tiles_grid as (rows & -> & Hrows).
  assert (Hwidth : Forall (fun r => List.length r = Z.to_nat nw) rows).
  { clear Hbuild. induction Hrows as [|y' row ys rows Hrow _ IH];
      constructor; auto.
    now rewrite (Forall2_same_length _ _ _ Hrow), range_length. }
  destruct (Forall2_nth_error_left _ _ _ _ _ Hrows (range_nth _ _ Hy))
    as (row & Hrow & Hcells).
  destruct (Forall2_nth_error_left _ _ _ _ _ Hcells (range_nth _ _ Hx))
    as (tile & Htile & Hcopy).
  exists tile. split; [assumption|].
  replace (Z.to_nat (y * nw + x))
    with (Z.to_nat y * Z.to_nat nw + Z.to_nat x)%nat by nia.
  rewrite (nth_error_concat_rows _ _ _ _ _ Hwidth Hrow) by lia.
  assumption.
Qed.

End BuildTiles.

Section CopyTile.

Import TileExpander.

(** A copied tile is the source tile at the index the loop computes. *)
Lemma copy_tile_source existing_tiles ow oh x y tile :
  copy_tile existing_tiles ow oh x y = Ok tile ->
  getitem existing_tiles (y mod oh * ow + x mod ow) = Ok tile.
Proof.
  unfold copy_tile, py_mod.
  destruct (ow =? 0); [discriminate|].
  destruct (oh =? 0); [discriminate|]. simpl.
  destruct (getitem _ _) as [t|]; [|discriminate]. simpl.
  destruct t; simpl; congruence.
Qed.

Lemma py_index_nonneg {A} (l : list A) i :
  0 <= i -> py_index l i = match nth_error l (Z.to_nat i) with
                           | Some x => Ok x
                           | None => Raise IndexError
                           end.
Proof.
  intros Hi. unfold py_index.
  destruct (i <? 0) eqn:E; [apply Z.ltb_lt in E; lia|].
  now rewrite E.
Qed.

End CopyTile.

Section TargetFacts.

Import TileExpander.

Lemma app_same_length_inv {A} (a b c d : list A) :
  List.length a = List.length b -> a ++ c = b ++ d -> a = b /\ c = d.
Proof.
  revert b; induction a as [|x a IH]; intros [|y b]; simpl;
    try discriminate; auto.
  intros [= Hlen] [= -> Happ]. destruct (IH _ Hlen Happ). split; congruence.
Qed.

(** A scene has one target tilemap. *)
Lemma target_at_unique scene b1 id1 d1 m1 a1 b2 id2 d2 m2 a2 :
  target_at scene b1 id1 d1 m1 a1 -> target_at scene b2 id2 d2 m2 a2 ->
  b1 = b2 /\ id1 = id2 /\ d1 = d2 /\ m1 = m2 /\ a1 = a2.
Proof.
  intros H1 H2.
  destruct (target_search _ _ _ _ _ _ H1) as (e1 & Hit1 & Hf1).
  destruct (target_search _ _ _ _ _ _ H2) as (e2 & Hit2 & Hf2).
  rewrite Hit1 in Hit2. injection Hit2 as <-.
  rewrite Hf1 in Hf2. injection Hf2 as Hlen <-.
  destruct H1 as (Hl1 & _), H2 as (Hl2 & _).
  rewrite Hl1 in Hl2. injection Hl2 as Happ.
  apply app_same_length_inv in Happ as [-> Htail]; [|assumption].
  injection Htail as -> -> ->. auto.
Qed.

(** The target tilemap of the written scene. *)
Lemma target_at_setitem scene before entity_id data more after data' :
  target_at scene before entity_id data more after ->
  target_at
    (setitem "tilemaps"
       (JArr (before ++ JArr (entity_id :: data' :: more) :: after)) scene)
    before entity_id data' more after.
Proof.
  intros (_ & Hb & Hid). unfold target_at.
  rewrite lookup_setitem_same. auto.
Qed.

Lemma tiles_of_expanded fields new_tiles nw nh :
  tiles_of (expanded_fields fields new_tiles nw nh) = JArr new_tiles.
Proof.
  unfold tiles_of, get_default, expanded_fields.
  rewrite !lookup_setitem_other by discriminate.
  now rewrite lookup_setitem_same.
Qed.

(** A successful run, told for the target tilemap of the scene it
    read. *)
Lemma expand_tilemap_expands scene_file ow oh nw nh w w'
    scene before entity_id fields more after :
  files w scene_file = Some scene ->
  target_at scene before entity_id (JObj fields) more after ->
  expand_tilemap scene_file ow oh nw nh w = (Ok true, w') ->
  exists new_tiles,
    len (tiles_of fields) = Ok (ow * oh)
    /\ build_tiles (tiles_of fields) ow oh nw nh = Ok new_tiles
    /\ w' = expanded_world w scene_file scene before entity_id fields
              more after new_tiles ow oh nw nh.
Proof.
  intros Hfile Htarget Hrun.
  apply expand_tilemap_true in Hrun
    as (scene0 & b & id & f & m & a & new_tiles & Hfile0 & Htarget0
        & Hlen & Hbuild & ->).
  rewrite Hfile in Hfile0. injection Hfile0 as <-.
  destruct (target_at_unique _ _ _ _ _ _ _ _ _ _ _ Htarget Htarget0)
    as (-> & -> & [= ->] & -> & ->).
  exists new_tiles. auto.
Qed.

Lemma expanded_world_scene w scene_file scene before entity_id fields
    more after new_tiles ow oh nw nh :
  target_at scene before entity_id (JObj fields) more after ->
  exists scene',
    files (expanded_world w scene_file scene before entity_id fields
             more after new_tiles ow oh nw nh) scene_file = Some scene'
    /\ target_at scene' before entity_id
         (JObj (expanded_fields fields new_tiles nw nh)) more after.
Proof.
  intros Htarget. unfold expanded_world. cbn [files].
  rewrite String.eqb_refl. eexists. split; [reflexivity|].
  now apply target_at_setitem with (data := JObj fields).
Qed.

End TargetFacts.

Section ExpanderFailures.

Import TileExpander.

Variables (scene_file : Path) (ow oh nw nh : Z) (w : world) (scene : dict).
Hypothesis Hfile : files w scene_file = Some scene.

Lemma expand_tilemap_not_found :
  no_entity_315 scene ->
  expand_tilemap scene_file ow oh nw nh w
  = (Ok false, printed w [MsgEntityNotFound]).
Proof.
  intros Hno.
  unfold expand_tilemap, bind, read_json, lift, ret, print, get_default.
  rewrite Hfile.
  destruct Hno as [Habsent|(entries & Hl & Hskip)].
  - rewrite Habsent. reflexivity.
  - rewrite Hl. simpl. now rewrite (find_tilemap_none _ Hskip).
Qed.

Lemma expand_tilemap_falsy before entity_id data more after :
  target_at scene before entity_id data more after ->
  truthy data = false ->
  expand_tilemap scene_file ow oh nw nh w
  = (Ok false, printed w [MsgEntityNotFound]).
Proof.
  intros Htarget Hfalsy.
  destruct (target_search _ _ _ _ _ _ Htarget) as (entries & Hit & Hfind).
  unfold expand_tilemap, bind, read_json, lift, ret, print.
  rewrite Hfile, Hit, Hfind, Hfalsy. reflexivity.
Qed.

Lemma expand_tilemap_count_mismatch
    before entity_id fields more after count :
  target_at scene before entity_id (JObj fields) more after ->
  fields <> [] ->
  len (tiles_of fields) = Ok count ->
  count <> ow * oh ->
  expand_tilemap scene_file ow oh nw nh w
  = (Ok false, printed w [MsgExpectedTiles (ow * oh) count]).
Proof.
  intros Htarget Hne Hlen Hcount.
  destruct (target_search _ _ _ _ _ _ Htarget) as (entries & Hit & Hfind).
  unfold expand_tilemap, bind, read_json, lift, ret, print.
  rewrite Hfile, Hit, Hfind.
  destruct fields as [|kv fields]; [congruence|].
  cbn [truthy negb get_method]. fold (tiles_of (kv :: fields)).
  rewrite Hlen. apply Z.eqb_neq in Hcount. rewrite Hcount. reflexivity.
Qed.

End ExpanderFailures.

Section ExpanderWrites.

Import TileExpander.


Lemma setitem_nonempty key v d : setitem key v d <> [].
Proof.
  destruct d as [|[k x] d]; simpl; [discriminate|].
  destruct (String.eqb key k); discriminate.
Qed.

End ExpanderWrites.

Section ExpanderTotal.

Import TileExpander.

Lemma Forall2_of_total {A B} (f : A -> result B) xs :
  (forall x, In x xs -> exists t, f x = Ok t) ->
  exists ts, Forall2 (fun x t => f x = Ok t) xs ts.
Proof.
  induction xs as [|x xs IH]; intros H.
  - exists []. constructor.
  - destruct (H x) as [t Ht]; [now left|].
    destruct IH as [ts Hts]; [intros y Hy; apply H; now right|].
    exists (t :: ts). now constructor.
Qed.


(** A grid of positive dimensions whose tiles are lists or mappings can
    be copied cell by cell. *)
Lemma copy_tile_total tiles ow oh x y :
  0 < ow -> 0 < oh ->
  Z.of_nat (List.length tiles) = ow * oh ->
  Forall (fun t => copyable t = true) tiles ->
  exists tile, copy_tile (JArr tiles) ow oh x y = Ok tile.
Proof.
  intros Hw Hh Hlen Hcopy. unfold copy_tile, py_mod.
  destruct (ow =? 0) eqn:E1; [apply Z.eqb_eq in E1; lia|].
  destruct (oh =? 0) eqn:E2; [apply Z.eqb_eq in E2; lia|].
  cbn [rbind getitem].
  pose proof (Z.mod_pos_bound x ow Hw) as Hx.
  pose proof (Z.mod_pos_bound y oh Hh) as Hy.
  rewrite py_index_nonneg by nia.
  destruct (nth_error tiles _) as [t|] eqn:Hnth.
  - rewrite Forall_forall in Hcopy.
    specialize (Hcopy t (nth_error_In _ _ Hnth)).
    destruct t; try discriminate; simpl; eauto.
  - apply nth_error_None in Hnth. nia.
Qed.

Lemma build_tiles_total tiles ow oh nw nh :
  0 < ow -> 0 < oh ->
  Z.of_nat (List.length tiles) = ow * oh ->
  Forall (fun t => copyable t = true) tiles ->
  exists new_tiles, build_tiles (JArr tiles) ow oh nw nh = Ok new_tiles.
Proof.
  intros Hw Hh Hlen Hcopy.
  destruct (Forall2_of_total
              (fun y => let? row :=
                          for_in (range nw)
                            (fun x acc =>
                               let? t := copy_tile (JArr tiles) ow oh x y in
                               Ok (acc ++ [t])) [] in Ok row)
              (range nh)) as [rows Hrows].
  { intros y _.
    destruct (Forall2_of_total
                (fun x => copy_tile (JArr tiles) ow oh x y) (range nw))
      as [row Hrow].
    - intros x _. now apply copy_tile_total.
    - rewrite (for_in_append_total _ _ _ Hrow). simpl. eauto. }
  exists (List.concat rows). unfold build_tiles.
  apply (for_in_rows_total (fun y x => copy_tile (JArr tiles) ow oh x y)
           (range nw) (range nh) rows).
  clear -Hrows. induction Hrows as [|y row ys rows Hrow _ IH];
    constructor; auto.
  destruct (for_in (range nw) _ []) as [r|] eqn:Hfor; simpl in Hrow;
    [|discriminate].
  injection Hrow as ->.
  apply for_in_append in Hfor as (ts & Heq & Hts). simpl in Heq. now subst.
Qed.

(** The Tile Expander succeeds on every scene of the expected shape. *)
Lemma expand_tilemap_total scene_file ow oh nw nh w
    scene before entity_id fields more after tiles :
  0 < ow -> 0 < oh ->
  files w scene_file = Some scene ->
  target_at scene before entity_id (JObj fields) more after ->
  tiles_of fields = JArr tiles ->
  Z.of_nat (List.length tiles) = ow * oh ->
  Forall (fun t => copyable t = true) tiles ->
  exists w', expand_tilemap scene_file ow oh nw nh w = (Ok true, w').
Proof.
  intros Hw Hh Hfile Htarget Htiles Hlen Hcopy.
  destruct (build_tiles_total tiles ow oh nw nh Hw Hh Hlen Hcopy)
    as [new_tiles Hbuild].
  eexists.
  apply expand_tilemap_succeeds with (new_tiles := new_tiles);
    try eassumption.
  - intros ->. unfold tiles_of, get_default in Htiles. simpl in Htiles.
    injection Htiles as <-. simpl in Hlen. nia.
  - rewrite Htiles. simpl. now rewrite Hlen.
  - now rewrite Htiles.
Qed.

End ExpanderTotal.

(* ================================================================== *)
(** * The Tile Expander: properties *)
(* ================================================================== *)

Section ExpanderProperties.

Import TileExpander Examples.

(** C2.  Let the new dimensions be at least the old ones and the
    target tilemap hold exactly [old_width * old_height] tiles.  In
    the scene a successful run writes, the tile at row-major index
    [y * new_width + x] of the target tilemap is the original tile at
    index [(y mod old_height) * old_width + (x mod old_width)], for
    every cell [(x, y)] of the new grid. *)
Theorem expanded_tile_is_source_tile_modulo
    scene_file old_width old_height new_width new_height w w'
    scene before entity_id fields more after tiles :
  old_width <= new_width -> old_height <= new_height ->
  files w scene_file = Some scene ->
  target_at scene before entity_id (JObj fields) more after ->
  tiles_of fields = JArr tiles ->
  Z.of_nat (List.length tiles) = old_width * old_height ->
  expand_tilemap scene_file old_width old_height new_width new_height w
    = (Ok true, w') ->
  exists scene' fields' tiles',
    files w' scene_file = Some scene'
    /\ target_at scene' before entity_id (JObj fields') more after
    /\ tiles_of fields' = JArr tiles'
    /\ forall x y,
         0 <= x < new_width -> 0 <= y < new_height ->
         exists tile,
           py_index tiles (y mod old_height * old_width + x mod old_width)
             = Ok tile
           /\ py_index tiles' (y * new_width + x) = Ok tile.
Proof.
  intros _ _ Hfile Htarget Htiles _ Hrun.
  destruct (expand_tilemap_expands _ _ _ _ _ _ _ _ _ _ _ _ _ Hfile Htarget Hrun)
    as (new_tiles & _ & Hbuild & ->).
  destruct (expanded_world_scene w scene_file _ _ _ _ _ _ new_tiles
              old_width old_height new_width new_height Htarget)
    as (scene' & Hfile' & Htarget').
  exists scene', (expanded_fields fields new_tiles new_width new_height),
    new_tiles.
  split; [assumption|]. split; [assumption|].
  split; [apply tiles_of_expanded|].
  intros x y Hx Hy.
  destruct (build_tiles_cell _ _ _ _ _ _ Hbuild _ _ Hx Hy) as (tile & Hcopy & Hnth).
  exists tile. apply copy_tile_source in Hcopy.
  rewrite Htiles in Hcopy. split; [exact Hcopy|].
  rewrite py_index_nonneg by nia. now rewrite Hnth.
Qed.

Lemma expanded_tile_is_source_tile_modulo_witness :
  let w := world_with "main.json" strip_scene [] in
  let w' := snd (expand_tilemap "main.json" 2 1 3 2 w) in
  exists scene' fields' tiles',
    files w' "main.json" = Some scene'
    /\ target_at scene' [JArr [JInt 7; JObj [("tiles", JArr [])]]]
         (JInt 315) (JObj fields') [] []
    /\ tiles_of fields' = JArr tiles'
    /\ forall x y,
         0 <= x < 3 -> 0 <= y < 2 ->
         exists t,
           py_index [tile 0; tile 1] (y mod 1 * 2 + x mod 2) = Ok t
           /\ py_index tiles' (y * 3 + x) = Ok t.
Proof.
  intros w w'.
  apply (expanded_tile_is_source_tile_modulo "main.json" 2 1 3 2 w w'
           strip_scene [JArr [JInt 7; JObj [("tiles", JArr [])]]]
           (JInt 315) strip_fields [] [] [tile 0; tile 1]).
  - lia.
  - lia.
  - reflexivity.
  - repeat split; reflexivity.
  - reflexivity.
  - reflexivity.
  - reflexivity.
Defined.

(** C3.  With [new_width = old_width] and [new_height = old_height]
    (dimensions are counts, so not negative) and a target tilemap of
    exactly [old_width * old_height] tiles, the tile array a
    successful run writes is the original tile array. *)
Theorem expand_to_same_dimensions_keeps_tiles
    scene_file old_width old_height w w'
    scene before entity_id fields more after tiles :
  0 <= old_width -> 0 <= old_height ->
  files w scene_file = Some scene ->
  target_at scene before entity_id (JObj fields) more after ->
  tiles_of fields = JArr tiles ->
  Z.of_nat (List.length tiles) = old_width * old_height ->
  expand_tilemap scene_file old_width old_height old_width old_height w
    = (Ok true, w') ->
  exists scene' fields',
    files w' scene_file = Some scene'
    /\ target_at scene' before entity_id (JObj fields') more after
    /\ tiles_of fields' = JArr tiles.
Proof.
  intros Hw Hh Hfile Htarget Htiles Hcount Hrun.
  destruct (expand_tilemap_expands _ _ _ _ _ _ _ _ _ _ _ _ _ Hfile Htarget Hrun)
    as (new_tiles & _ & Hbuild & ->).
  destruct (expanded_world_scene w scene_file _ _ _ _ _ _ new_tiles
              old_width old_height old_width old_height Htarget)
    as (scene' & Hfile' & Htarget').
  exists scene', (expanded_fields fields new_tiles old_width old_height).
  split; [assumption|]. split; [assumption|].
  rewrite tiles_of_expanded. f_equal.
  pose proof (build_tiles_length _ _ _ _ _ _ Hbuild) as Hlen.
  apply nth_error_ext. intros k.
  destruct (Nat.lt_ge_cases k (List.length tiles)) as [Hk|Hk].
  - assert (Hpos : 0 < old_width) by nia.
    set (x := Z.of_nat k mod old_width).
    set (y := Z.of_nat k / old_width).
    assert (Hx : 0 <= x < old_width) by (apply Z.mod_pos_bound; lia).
    assert (Hdiv : Z.of_nat k = old_width * y + x)
      by (apply Z.div_mod; lia).
    assert (Hy : 0 <= y < old_height) by nia.
    destruct (build_tiles_cell _ _ _ _ _ _ Hbuild _ _ Hx Hy) as (t & Hcopy & Hnth).
    apply copy_tile_source in Hcopy. rewrite Htiles in Hcopy.
    rewrite Z.mod_small, Z.mod_small in Hcopy by lia.
    replace (y * old_width + x) with (Z.of_nat k) in Hcopy, Hnth by lia.
    simpl in Hcopy. rewrite py_index_nonneg in Hcopy by lia.
    rewrite Nat2Z.id in Hcopy, Hnth. rewrite Hnth.
    destruct (nth_error tiles k); congruence.
  - transitivity (@None json); [|symmetry]; apply nth_error_None; nia.
Qed.

Lemma expand_to_same_dimensions_keeps_tiles_witness :
  let w := world_with "main.json" square_scene [] in
  let w' := snd (expand_tilemap "main.json" 2 2 2 2 w) in
  exists scene' fields',
    files w' "main.json" = Some scene'
    /\ target_at scene' [] (JInt 315) (JObj fields') [] []
    /\ tiles_of fields' = JArr [tile 0; tile 1; tile 2; tile 3].
Proof.
  intros w w'.
  apply (expand_to_same_dimensions_keeps_tiles "main.json" 2 2 w w'
           square_scene [] (JInt 315) square_fields [] []
           [tile 0; tile 1; tile 2; tile 3]).
  - lia.
  - lia.
  - reflexivity.
  - repeat split; reflexivity.
  - reflexivity.
  - reflexivity.
  - reflexivity.
Defined.

(** C4, as the code has it.  After a successful run, a second run
    with the same old and new dimensions, where the new grid has
    another number of cells than the old one, does not recompute
    anything: it finds [new_width * new_height] tiles where it expects
    [old_width * old_height], reports that, returns [False] and leaves
    the file as the first run wrote it. *)
Theorem rerun_with_stale_dimensions_fails
    scene_file old_width old_height new_width new_height w w1 :
  0 <= new_width -> 0 <= new_height ->
  new_width * new_height <> old_width * old_height ->
  expand_tilemap scene_file old_width old_height new_width new_height w
    = (Ok true, w1) ->
  expand_tilemap scene_file old_width old_height new_width new_height w1
    = (Ok false,
       printed w1 [MsgExpectedTiles (old_width * old_height)
                                    (new_width * new_height)]).
Proof.
  intros Hw Hh Hne Hrun.
  apply expand_tilemap_true in Hrun
    as (scene & before & id & fields & more & after & new_tiles
        & Hfile & Htarget & _ & Hbuild & ->).
  destruct (expanded_world_scene w scene_file _ _ _ _ _ _ new_tiles
              old_width old_height new_width new_height Htarget)
    as (scene' & Hfile' & Htarget').
  apply (expand_tilemap_count_mismatch _ _ _ _ _ _ _ Hfile'
           _ _ _ _ _ _ Htarget').
  - apply setitem_nonempty.
  - rewrite tiles_of_expanded. simpl. f_equal.
    rewrite (build_tiles_length _ _ _ _ _ _ Hbuild). nia.
  - assumption.
Qed.

Lemma rerun_with_stale_dimensions_fails_witness :
  let w := world_with "main.json" strip_scene [] in
  let w1 := snd (expand_tilemap "main.json" 2 1 3 2 w) in
  expand_tilemap "main.json" 2 1 3 2 w1
  = (Ok false, printed w1 [MsgExpectedTiles (2 * 1) (3 * 2)]).
Proof.
  intros w w1.
  apply (rerun_with_stale_dimensions_fails "main.json" 2 1 3 2 w w1).
  - lia.
  - lia.
  - lia.
  - reflexivity.
Defined.

(** C4, as the specification states it, fails: on the 20 x 20 result
    of expanding a 10 x 10 tilemap, the second run with old 10 x 10
    and new 20 x 20 fails with the tile-count report and rewrites
    nothing. *)
Lemma rerun_does_not_recompute :
  let w := world_with scene_file ten_scene [] in
  let w1 := snd (expand_tilemap scene_file 10 10 20 20 w) in
  let second := expand_tilemap scene_file 10 10 20 20 w1 in
  fst (expand_tilemap scene_file 10 10 20 20 w) = Ok true
  /\ fst second = Ok false
  /\ stdout (snd second) = stdout w1 ++ [MsgExpectedTiles 100 400]
  /\ files (snd second) scene_file = files w1 scene_file.
Proof. vm_compute. repeat split; reflexivity. Qed.

(** C6.  When no entry of the tilemaps section has identifier 315, or
    the tilemap found has another number of tiles than
    [old_width * old_height] (10 * 10 for the tool), the Tile Expander
    prints its error report and [Failed to expand tilemap!], exits
    with status 1 and writes no file. *)
Theorem expander_reports_failure_and_writes_nothing w scene :
  files w scene_file = Some scene ->
  (no_entity_315 scene
   \/ exists before entity_id fields more after count,
        target_at scene before entity_id (JObj fields) more after
        /\ fields <> []
        /\ len (tiles_of fields) = Ok count
        /\ count <> 10 * 10) ->
  exists report,
    (report = MsgEntityNotFound
     \/ exists count, count <> 10 * 10
                      /\ report = MsgExpectedTiles (10 * 10) count)
    /\ run main w = (1, printed w [report; MsgExpandFailed]).
Proof.
  intros Hfile Hcase.
  assert (Hfail : exists report,
             (report = MsgEntityNotFound
              \/ exists count, count <> 10 * 10
                               /\ report = MsgExpectedTiles (10 * 10) count)
             /\ expand_tilemap scene_file 10 10 20 20 w
                = (Ok false, printed w [report])).
  { destruct Hcase as [Hno|(before & id & fields & more & after & count
                            & Htarget & Hne & Hlen & Hcount)].
    - exists MsgEntityNotFound. split; [now left|].
      now apply expand_tilemap_not_found with (scene := scene).
    - exists (MsgExpectedTiles (10 * 10) count). split; [right; eauto|].
      now apply expand_tilemap_count_mismatch
        with (scene := scene) (before := before) (entity_id := id)
             (fields := fields) (more := more) (after := after). }
  destruct Hfail as (report & Hreport & Hrun).
  exists report. split; [assumption|].
  unfold run, main, bind. rewrite Hrun.
  unfold print, sys_exit, raise, printed. cbn [files stdin stdout].
  now rewrite <- app_assoc.
Qed.

Lemma expander_reports_failure_and_writes_nothing_witness :
  let w := world_with scene_file other_scene [] in
  exists report,
    (report = MsgEntityNotFound
     \/ exists count, count <> 10 * 10
                      /\ report = MsgExpectedTiles (10 * 10) count)
    /\ run main w = (1, printed w [report; MsgExpandFailed]).
Proof.
  intros w.
  apply (expander_reports_failure_and_writes_nothing w other_scene).
  - reflexivity.
  - left. right. exists [JArr [JInt 7; JObj strip_fields]].
    split; reflexivity.
Defined.

(** C9.  In the scene a successful run writes, the sections and their
    order are those of the scene it read; every section but
    [tilemaps] has its old value; the tilemaps list differs only in
    the data mapping of the target entry; and that mapping differs
    only at [tiles], [width] and [height].  No other file changes. *)
Theorem expand_changes_only_tiles_width_height
    scene_file old_width old_height new_width new_height w w'
    scene before entity_id fields more after :
  files w scene_file = Some scene ->
  target_at scene before entity_id (JObj fields) more after ->
  expand_tilemap scene_file old_width old_height new_width new_height w
    = (Ok true, w') ->
  exists scene' fields',
    files w' scene_file = Some scene'
    /\ (forall p, p <> scene_file -> files w' p = files w p)
    /\ map fst scene' = map fst scene
    /\ (forall section,
          section <> "tilemaps" ->
          lookup section scene' = lookup section scene)
    /\ lookup "tilemaps" scene'
       = Some (JArr (before
                     ++ JArr (entity_id :: JObj fields' :: more) :: after))
    /\ (forall field,
          field <> "tiles" -> field <> "width" -> field <> "height" ->
          lookup field fields' = lookup field fields)
    /\ lookup "width" fields' = Some (JInt new_width)
    /\ lookup "height" fields' = Some (JInt new_height).
Proof.
  intros Hfile Htarget Hrun.
  destruct (expand_tilemap_expands _ _ _ _ _ _ _ _ _ _ _ _ _
              Hfile Htarget Hrun) as (new_tiles & _ & _ & ->).
  eexists.
  exists (expanded_fields fields new_tiles new_width new_height).
  unfold expanded_world. cbn [files].
  split; [rewrite String.eqb_refl; reflexivity|].
  split.
  { intros p Hp. apply String.eqb_neq in Hp. now rewrite Hp. }
  split.
  { apply setitem_keys. destruct Htarget as (Hl & _). congruence. }
  split.
  { intros section Hs. now apply lookup_setitem_other. }
  split; [apply lookup_setitem_same|].
  unfold expanded_fields. split; [|split].
  - intros field Ht Hw Hh. now rewrite !lookup_setitem_other.
  - rewrite lookup_setitem_other by discriminate.
    apply lookup_setitem_same.
  - apply lookup_setitem_same.
Qed.

Lemma expand_changes_only_tiles_width_height_witness :
  let w := world_with "main.json" strip_scene [] in
  let w' := snd (expand_tilemap "main.json" 2 1 3 2 w) in
  exists scene' fields',
    files w' "main.json" = Some scene'
    /\ (forall p, p <> "main.json" -> files w' p = files w p)
    /\ map fst scene' = map fst strip_scene
    /\ (forall section,
          section <> "tilemaps" ->
          lookup section scene' = lookup section strip_scene)
    /\ lookup "tilemaps" scene'
       = Some (JArr ([JArr [JInt 7; JObj [("tiles", JArr [])]]]
                     ++ JArr (JInt 315 :: JObj fields' :: []) :: []))
    /\ (forall field,
          field <> "tiles" -> field <> "width" -> field <> "height" ->
          lookup field fields' = lookup field strip_fields)
    /\ lookup "width" fields' = Some (JInt 3)
    /\ lookup "height" fields' = Some (JInt 2).
Proof.
  intros w w'.
  apply (expand_changes_only_tiles_width_height "main.json" 2 1 3 2 w w').
  - reflexivity.
  - repeat split; reflexivity.
  - reflexivity.
Defined.

(** C10.  When the entry of entity 315 carries an empty mapping, or
    any other value Python takes for false, as its tilemap data, the
    run prints [Tilemap entity 315 not found!], returns [False] and
    writes nothing, although the entry is there. *)
Theorem falsy_tilemap_data_is_reported_not_found
    scene_file old_width old_height new_width new_height w
    scene before entity_id data more after :
  files w scene_file = Some scene ->
  target_at scene before entity_id data more after ->
  truthy data = false ->
  expand_tilemap scene_file old_width old_height new_width new_height w
  = (Ok false, printed w [MsgEntityNotFound]).
Proof.
  intros Hfile Htarget Hfalsy.
  now apply expand_tilemap_falsy
    with (scene := scene) (before := before) (entity_id := entity_id)
         (data := data) (more := more) (after := after).
Qed.

Lemma falsy_tilemap_data_is_reported_not_found_witness :
  let w := world_with scene_file hollow_scene [] in
  expand_tilemap scene_file 10 10 20 20 w
  = (Ok false, printed w [MsgEntityNotFound]).
Proof.
  intros w.
  apply (falsy_tilemap_data_is_reported_not_found scene_file 10 10 20 20 w
           hollow_scene [JArr [JInt 7; JObj strip_fields]] (JInt 315)
           (JObj []) [] []).
  - reflexivity.
  - repeat split; reflexivity.
  - reflexivity.
Defined.

End ExpanderProperties.

(* ================================================================== *)
(** * Computations that only print *)
(* ================================================================== *)

Section OnlyPrints.

Lemma printed_nil w : printed w [] = w.
Proof. destruct w. unfold printed. simpl. now rewrite app_nil_r. Qed.

Lemma printed_printed w a b : printed (printed w a) b = printed w (a ++ b).
Proof. unfold printed. simpl. now rewrite app_assoc. Qed.

Lemma only_prints_ret {A} (a : A) : only_prints (ret a).
Proof.
  intros w r w' [= <- <-]. exists []. now rewrite printed_nil.
Qed.

Lemma only_prints_lift {A} (r : result A) : only_prints (lift r).
Proof.
  intros w r' w' [= <- <-]. exists []. now rewrite printed_nil.
Qed.

Lemma only_prints_print m : only_prints (print m).
Proof. intros w r w' [= <- <-]. exists [m]. reflexivity. Qed.


Lemma only_prints_bind {A B} (m : M A) (k : A -> M B) :
  only_prints m -> (forall a, only_prints (k a)) ->
  only_prints (bind m k).
Proof.
  intros Hm Hk w r w'. unfold bind.
  destruct (m w) as [[a|e] w1] eqn:Hrun.
  - intros Hrun'. apply Hm in Hrun as [m1 ->].
    apply Hk in Hrun' as [m2 ->]. exists (m1 ++ m2).
    apply printed_printed.
  - intros [= <- <-]. now apply Hm in Hrun.
Qed.

Lemma only_prints_for {A S} (body : A -> S -> M S) xs :
  (forall x acc, only_prints (body x acc)) ->
  forall acc, only_prints (for_in_M xs body acc).
Proof.
  intros Hbody. induction xs as [|x xs IH]; intros acc; simpl.
  - apply only_prints_ret.
  - apply only_prints_bind; auto.
Qed.

End OnlyPrints.

Section CleanerSteps.

Import ColliderCleaner.

Lemma only_prints_scan_name name_entry acc :
  only_prints (scan_name name_entry acc).
Proof.
  unfold scan_name.
  repeat (apply only_prints_bind; [apply only_prints_lift|intros ?]).
  destruct a1.
  - apply only_prints_bind; [apply only_prints_lift|intros k].
    apply only_prints_bind; [apply only_prints_print|intros _].
    apply only_prints_ret.
  - apply only_prints_ret.
Qed.

Lemma only_prints_clean_section ids item state :
  only_prints (clean_section ids item state).
Proof.
  destruct item as [section_name section_data], state as [d n].
  unfold clean_section.
  destruct section_data; try apply only_prints_ret.
  apply only_prints_bind; [apply only_prints_lift|intros filtered].
  destruct (negb _).
  - apply only_prints_bind; [apply only_prints_print|intros _].
    apply only_prints_ret.
  - apply only_prints_ret.
Qed.

(** A character is no collider name. *)
Lemma chars_index s i x :
  py_index (chars s) i = Ok x -> exists c, x = JStr (String c EmptyString).
Proof.
  unfold py_index, chars.
  destruct (_ <? 0); [discriminate|].
  rewrite nth_error_map.
  destruct (nth_error _ _) as [c|]; simpl; [|discriminate].
  intros [= <-]. eauto.
Qed.

Lemma prefix_of_char a b p c :
  String.prefix (String a (String b p)) (String c EmptyString) = false.
Proof. cbn [String.prefix]. destruct (ascii_dec a c); reflexivity. Qed.

Lemma char_is_no_collider_name c :
  is_collider_name (JStr (String c EmptyString)) = Ok false.
Proof.
  unfold is_collider_name, startswith, rbind.
  now rewrite !prefix_of_char.
Qed.

Lemma py_index_0 {A} (l : list A) x :
  py_index l 0 = Ok x -> exists l', l = x :: l'.
Proof.
  unfold py_index. simpl. destruct l; simpl; [discriminate|].
  intros [= <-]. eauto.
Qed.

Lemma py_index_1 {A} (y : A) l x :
  py_index (y :: l) 1 = Ok x -> exists l', l = x :: l'.
Proof.
  unfold py_index. simpl. destruct l; simpl; [discriminate|].
  intros [= <-]. eauto.
Qed.

(** One step of the scan adds the identifier of a collider entry and
    nothing else. *)
Lemma scan_name_adds name_entry acc w acc' w' :
  scan_name name_entry acc w = (Ok acc', w') ->
  acc' = match collider_key name_entry with
         | Some k => set_add k acc
         | None => acc
         end.
Proof.
  unfold scan_name, bind, lift, ret, print.
  destruct (getitem name_entry 0) as [id|] eqn:H0; [|discriminate].
  destruct (getitem name_entry 1) as [nm|] eqn:H1; [|discriminate].
  destruct (is_collider_name nm) as [b|] eqn:Hb; [|discriminate].
  destruct name_entry as [| | | |s|l|d]; simpl in H0, H1; try discriminate.
  - apply chars_index in H1 as [c ->].
    rewrite char_is_no_collider_name in Hb. injection Hb as <-.
    now intros [= <- <-].
  - apply py_index_0 in H0 as [l' ->].
    apply py_index_1 in H1 as [l'' ->].
    destruct nm; try discriminate.
    unfold is_collider_name, startswith, rbind in Hb.
    unfold collider_key, has_collider_name.
    destruct (String.prefix "CompositeCollider" s).
    + injection Hb as <-. cbn [orb].
      destruct (hashable id) as [k|]; [|discriminate].
      now intros [= <- <-].
    + injection Hb as <-. cbn [orb].
      destruct (String.prefix "Collider_" s).
      * destruct (hashable id) as [k|]; [|discriminate].
        now intros [= <- <-].
      * now intros [= <- <-].
Qed.

Lemma scan_names_members names :
  forall acc w ids w',
    for_in_M names scan_name acc w = (Ok ids, w') ->
    forall k, set_mem k ids = set_mem k acc || set_mem k (collider_keys names).
Proof.
  induction names as [|e names IH]; simpl; intros acc w ids w' Hrun k.
  - injection Hrun as <- <-. now rewrite orb_false_r.
  - unfold bind in Hrun.
    destruct (scan_name e acc w) as [[acc1|] w1] eqn:Hstep; [|discriminate].
    apply scan_name_adds in Hstep. rewrite (IH _ _ _ _ Hrun k). subst acc1.
    destruct (collider_key e) as [k'|]; [|reflexivity].
    rewrite set_mem_add. unfold set_mem at 4. simpl.
    fold (set_mem k (collider_keys names)).
    now rewrite orb_assoc, (orb_comm (key_eq k k')).
Qed.

(** A set is empty exactly when nothing is a member. *)
Lemma set_empty_iff (s : pyset) :
  s = [] <-> forall k, set_mem k s = false.
Proof.
  split; [intros -> k; reflexivity|].
  destruct s as [|k s]; [reflexivity|]. intros H. specialize (H k).
  unfold set_mem in H. simpl in H. now rewrite key_eq_refl in H.
Qed.

Lemma scan_plain names :
  forallb plain_name_entry names = true ->
  forall acc w, for_in_M names scan_name acc w = (Ok acc, w).
Proof.
  induction names as [|e names IH]; simpl; intros H acc w; [reflexivity|].
  apply andb_prop in H as [He H].
  unfold bind.
  assert (Hstep : scan_name e acc w = (Ok acc, w)).
  { destruct e as [| | | | |[|id [|[| | | |s| |] l]]|]; try discriminate.
    unfold plain_name_entry, has_collider_name in He.
    unfold scan_name, bind, lift, ret. simpl.
    unfold is_collider_name, startswith, rbind.
    destruct (String.prefix "CompositeCollider" s); [discriminate|].
    destruct (String.prefix "Collider_" s); [discriminate|]. reflexivity. }
  rewrite Hstep. now apply IH.
Qed.

End CleanerSteps.

Section RemovalPass.

Import ColliderCleaner.

Variable ids : pyset.

(** The loop over the entries of a section is a filter. *)
Lemma filter_entries entries :
  forall acc out,
    for_in entries (filter_entry ids) acc = Ok out ->
    out = acc ++ filter (retained ids) entries.
Proof.
  induction entries as [|e entries IH]; simpl; intros acc out H.
  - injection H as <-. now rewrite app_nil_r.
  - destruct (filter_entry ids e acc) as [acc1|] eqn:Hstep; simpl in H;
      [|discriminate].
    apply IH in H as ->.
    unfold filter_entry in Hstep. unfold retained, refers_to.
    destruct e as [| | | | |[|first l]|]; try (injection Hstep as <-);
      simpl; try now rewrite <- app_assoc.
    destruct (hashable first) as [k|]; simpl in Hstep; [|discriminate].
    destruct (set_mem k ids); simpl in *; injection Hstep as <-;
      [reflexivity|now rewrite <- app_assoc].
Qed.

Lemma setitem_middle k v x (pre rest : dict) :
  ~ In k (map fst pre) ->
  setitem k v (pre ++ (k, x) :: rest) = pre ++ (k, v) :: rest.
Proof.
  induction pre as [|[k0 y] pre IH]; simpl; intros Hnotin.
  - now rewrite String.eqb_refl.
  - destruct (String.eqb k k0) eqn:E.
    + apply String.eqb_eq in E. subst. tauto.
    + f_equal. apply IH. tauto.
Qed.

(** One section: its value becomes its clean value, in place. *)
Lemma clean_section_step k v (pre rest : dict) n w state w' :
  ~ In k (map fst pre) ->
  clean_section ids (k, v) (pre ++ (k, v) :: rest, n) w = (Ok state, w') ->
  fst state = pre ++ (k, clean_value ids v) :: rest.
Proof.
  intros Hnotin. unfold clean_section, bind, lift, ret, print.
  destruct v as [| | | | |entries|]; try (intros [= <- <-]; reflexivity).
  destruct (for_in entries (filter_entry ids) []) as [filtered|] eqn:Hf;
    [|discriminate].
  apply filter_entries in Hf. simpl in Hf. subst filtered.
  destruct (_ =? _) eqn:Hlen; cbn [negb].
  - intros [= <- <-]. simpl. apply Z.eqb_eq in Hlen.
    now rewrite filter_same_length by lia.
  - intros [= <- <-]. simpl. now apply setitem_middle.
Qed.

Lemma clean_sections items :
  forall (pre : dict) n w state w',
    NoDup (map fst (pre ++ items)) ->
    for_in_M items (clean_section ids) (pre ++ items, n) w
      = (Ok state, w') ->
    fst state = pre ++ clean_scene ids items.
Proof.
  induction items as [|[k v] items IH]; cbn [for_in_M];
    intros pre n w state w' Hnd.
  - intros [= <- <-]. reflexivity.
  - unfold bind.
    destruct (clean_section ids (k, v) (pre ++ (k, v) :: items, n) w)
      as [[[d n1]|] w1] eqn:Hstep; [|discriminate].
    assert (Hnotin : ~ In k (map fst pre)).
    { rewrite map_app in Hnd. simpl in Hnd.
      apply NoDup_remove_2 in Hnd. rewrite in_app_iff in Hnd. tauto. }
    apply clean_section_step in Hstep; [|assumption]. simpl in Hstep.
    subst d. intros Hrest.
    change (pre ++ (k, clean_value ids v) :: items)
      with (pre ++ [(k, clean_value ids v)] ++ items) in Hrest.
    rewrite app_assoc in Hrest. apply IH in Hrest.
    + rewrite Hrest, <- app_assoc. reflexivity.
    + rewrite <- app_assoc. simpl.
      rewrite !map_app in *. simpl in *. assumption.
Qed.

Lemma lookup_clean_scene k (scene : dict) :
  lookup k (clean_scene ids scene)
  = option_map (clean_value ids) (lookup k scene).
Proof.
  induction scene as [|[k0 v] scene IH]; simpl; [reflexivity|].
  destruct (String.eqb k k0); auto.
Qed.

Lemma clean_scene_keys (scene : dict) :
  map fst (clean_scene ids scene) = map fst scene.
Proof. unfold clean_scene. rewrite map_map. reflexivity. Qed.

End RemovalPass.

Section SameMembers.

Import ColliderCleaner.

(** The removal pass depends on the set through membership only. *)
Lemma clean_scene_ext a b scene :
  (forall k, set_mem k a = set_mem k b) ->
  clean_scene a scene = clean_scene b scene.
Proof.
  intros Hab. unfold clean_scene. apply map_ext. intros [k v].
  unfold clean_item. simpl. f_equal.
  destruct v as [| | | | |entries|]; simpl; try reflexivity. f_equal.
  apply filter_ext. intros e. unfold retained, refers_to.
  destruct e as [| | | | |[|first more]|]; try reflexivity.
  destruct (hashable first); [|reflexivity]. now rewrite Hab.
Qed.

Lemma collider_keys_strings (l : list string) :
  collider_keys (map JStr l) = [].
Proof. induction l; simpl; auto. Qed.

(** The set the scan builds has the members of [identified]. *)
Lemma scan_identifies scene v names w ids w' :
  lookup "names" scene = Some v ->
  iterate v = Ok names ->
  for_in_M names scan_name [] w = (Ok ids, w') ->
  forall k, set_mem k ids = set_mem k (identified scene).
Proof.
  intros Hl Hit Hscan k.
  rewrite (scan_names_members _ _ _ _ _ Hscan k). simpl.
  unfold identified. rewrite Hl.
  destruct v as [| | | |s|l|d]; simpl in Hit; try discriminate;
    injection Hit as <-.
  - unfold chars.
    rewrite <- (map_map (fun c => String c EmptyString) JStr).
    now rewrite collider_keys_strings.
  - reflexivity.
  - rewrite <- (map_map fst JStr). now rewrite collider_keys_strings.
Qed.

End SameMembers.

Section CleanerRuns.

Import ColliderCleaner.

Lemma find_only_prints scene : only_prints (find_collider_entities scene).
Proof.
  unfold find_collider_entities. destruct (contains "names" scene).
  - apply only_prints_bind; [apply only_prints_lift|intros names].
    apply only_prints_for. apply only_prints_scan_name.
  - apply only_prints_ret.
Qed.

Lemma remove_only_prints ids scene :
  only_prints (remove_collider_entities ids scene).
Proof. apply only_prints_for. apply only_prints_clean_section. Qed.

Lemma find_members scene ids w0 w1 :
  find_collider_entities scene w0 = (Ok ids, w1) ->
  forall k, set_mem k ids = set_mem k (identified scene).
Proof.
  unfold find_collider_entities, getkey, bind, lift, ret.
  destruct (contains "names" scene) eqn:Hc.
  - destruct (lookup "names" scene) as [v|] eqn:Hl; simpl; [|discriminate].
    destruct (iterate v) as [names|] eqn:Hit; [|discriminate].
    intros Hscan. eapply scan_identifies; eauto.
  - intros [= <- <-] k. apply contains_lookup in Hc.
    unfold identified. now rewrite Hc.
Qed.

Lemma find_nothing scene ids w0 w1 :
  find_collider_entities scene w0 = (Ok ids, w1) ->
  (ids = [] <-> identified scene = []).
Proof.
  intros Hfind. rewrite !set_empty_iff.
  split; intros H k; [rewrite <- (find_members _ _ _ _ Hfind k)
                     |rewrite (find_members _ _ _ _ Hfind k)]; apply H.
Qed.

Lemma remove_cleans ids scene w0 state w1 :
  NoDup (map fst scene) ->
  remove_collider_entities ids scene w0 = (Ok state, w1) ->
  fst state = clean_scene ids scene.
Proof.
  intros Hnd Hrun.
  now apply (clean_sections ids scene [] 0 w0 state w1).
Qed.

Variables (scene_path : Path) (w : world) (scene : dict).
Hypothesis Hfile : files w scene_path = Some scene.

(** A run that finds no collider entity, and a run that raises, write
    no file. *)
Lemma cleanup_writes_only_after_removal outcome w' :
  cleanup_scene_colliders scene_path w = (outcome, w') ->
  identified scene = [] \/ outcome <> Ok tt ->
  exists messages, w' = printed w messages.
Proof.
  unfold cleanup_scene_colliders, bind.
  unfold print at 1, read_json. cbn [files]. rewrite Hfile.
  destruct (find_collider_entities scene _) as [[ids|e] w1] eqn:Hfind.
  2:{ intros [= <- <-] _. apply find_only_prints in Hfind as [m ->].
      unfold printed. cbn [files stdin stdout].
      rewrite <- !app_assoc. eauto. }
  pose proof (find_nothing _ _ _ _ Hfind) as Hempty.
  apply find_only_prints in Hfind as [m ->].
  unfold print at 1.
  destruct ids as [|k ids].
  - unfold print. intros [= <- <-] _.
    unfold printed. cbn [files stdin stdout].
    rewrite <- !app_assoc. eauto.
  - destruct (remove_collider_entities _ _ _) as [[[d n]|e] w2] eqn:Hrem.
    + unfold write_json, print. cbn [files stdin stdout].
      intros [= <- <-] [Hnone|Hfail]; [|congruence].
      apply Hempty in Hnone. discriminate.
    + intros [= <- <-] _. apply remove_only_prints in Hrem as [m2 ->].
      unfold printed. cbn [files stdin stdout].
      rewrite <- !app_assoc. eauto.
Qed.

(** A run that finds collider entities and returns has written the
    cleaned document twice. *)
Lemma cleanup_with_colliders w' :
  NoDup (map fst scene) ->
  identified scene <> [] ->
  cleanup_scene_colliders scene_path w = (Ok tt, w') ->
  exists messages,
    w' = World (files_after_cleanup w scene_path
                  (clean_scene (identified scene) scene))
               (stdin w) (stdout w ++ messages).
Proof.
  intros Hnd Hsome.
  unfold cleanup_scene_colliders, bind.
  unfold print at 1, read_json. cbn [files]. rewrite Hfile.
  destruct (find_collider_entities scene _) as [[ids|e] w1] eqn:Hfind;
    [|discriminate].
  pose proof (find_nothing _ _ _ _ Hfind) as Hempty.
  pose proof (find_members _ _ _ _ Hfind) as Hmem.
  apply find_only_prints in Hfind as [m ->].
  unfold print at 1.
  destruct ids as [|k ids]; [tauto|].
  destruct (remove_collider_entities _ _ _) as [[[d n]|e] w2] eqn:Hrem;
    [|discriminate].
  pose proof (remove_cleans _ _ _ _ _ Hnd Hrem) as Hd. simpl in Hd.
  rewrite (clean_scene_ext _ _ scene Hmem) in Hd. subst d.
  apply remove_only_prints in Hrem as [m2 ->].
  unfold write_json, print. cbn [files stdin stdout].
  intros [= <-]. unfold printed, files_after_cleanup, backup_of.
  cbn [files stdin stdout]. rewrite <- !app_assoc. eauto.
Qed.

End CleanerRuns.

Section CleanerFacts.

Import ColliderCleaner.

Lemma retained_nil entry : retained [] entry = true.
Proof.
  unfold retained, refers_to.
  destruct entry as [| | | | |[|first more]|]; try reflexivity.
  destruct (hashable first); reflexivity.
Qed.

Lemma clean_value_nil v : clean_value [] v = v.
Proof.
  destruct v as [| | | | |entries|]; simpl; try reflexivity. f_equal.
  induction entries as [|e entries IH]; simpl; [reflexivity|].
  rewrite retained_nil. now f_equal.
Qed.

Lemma set_mem_In k (s : pyset) : In k s -> set_mem k s = true.
Proof.
  intros Hin. apply existsb_exists. exists k. auto using key_eq_refl.
Qed.

(** Every identified key is the identifier of a names entry, which
    the removal pass drops. *)
Lemma collider_keys_entry names k :
  In k (collider_keys names) ->
  exists entry, In entry names /\ collider_key entry = Some k.
Proof.
  induction names as [|e names IH]; simpl; [tauto|].
  destruct (collider_key e) as [k'|] eqn:He.
  - intros [<-|Hin]; [eauto|].
    destruct (IH Hin) as (entry & ? & ?). eauto.
  - intros Hin. destruct (IH Hin) as (entry & ? & ?). eauto.
Qed.

Lemma collider_entry_dropped ids entry k :
  collider_key entry = Some k -> In k ids -> retained ids entry = false.
Proof.
  unfold collider_key, retained, refers_to.
  destruct entry as [| | | | |[|first more]|]; try discriminate.
  destruct (has_collider_name _); [|discriminate].
  destruct (hashable first) as [k'|]; [|discriminate].
  intros [= ->] Hin. now rewrite (set_mem_In _ _ Hin).
Qed.

Lemma filter_drops {A} (keep : A -> bool) x l :
  In x l -> keep x = false -> filter keep l <> l.
Proof.
  intros Hin Hx Heq. rewrite <- Heq in Hin.
  apply filter_In in Hin as [_ Hkeep]. congruence.
Qed.

(** When collider entities are identified, the removal pass changes
    the document: at least their names entries go. *)
Lemma clean_scene_differs scene :
  identified scene <> [] ->
  clean_scene (identified scene) scene <> scene.
Proof.
  intros Hsome Heq.
  assert (Hl : lookup "names" (clean_scene (identified scene) scene)
               = lookup "names" scene) by now rewrite Heq.
  rewrite lookup_clean_scene in Hl.
  unfold identified in *.
  destruct (lookup "names" scene) as [[| | | | |names|]|]; try congruence.
  simpl in Hl. injection Hl as Hl.
  destruct (collider_keys names) as [|k ks] eqn:Hkeys; [congruence|].
  destruct (collider_keys_entry names k) as (entry & Hin & Hkey).
  { rewrite Hkeys. now left. }
  revert Hl. apply filter_drops with (x := entry); [assumption|].
  apply collider_entry_dropped with (k := k); [assumption|now left].
Qed.

Lemma contains_true k d : lookup k d <> None -> contains k d = true.
Proof.
  intros H. destruct (contains k d) eqn:E; [reflexivity|].
  apply contains_lookup in E. contradiction.
Qed.

End CleanerFacts.

Section CleanerTotal.

Import ColliderCleaner.

Lemma scan_name_total name_entry acc w :
  name_entry_ok name_entry = true ->
  exists acc' w', scan_name name_entry acc w = (Ok acc', w').
Proof.
  intros Hok.
  destruct name_entry as [| | | | |[|id [|[| | | |s| |] l]]|];
    try discriminate.
  unfold name_entry_ok in Hok.
  unfold scan_name, bind, lift, ret, print.
  change (getitem (JArr (id :: JStr s :: l)) 0) with (Ok id).
  change (getitem (JArr (id :: JStr s :: l)) 1) with (Ok (JStr s)).
  destruct (hashable id) as [k|] eqn:Hk; [|discriminate].
  unfold is_collider_name, startswith, rbind.
  destruct (String.prefix "CompositeCollider" s);
    [rewrite Hk; do 2 eexists; reflexivity|].
  destruct (String.prefix "Collider_" s);
    [rewrite Hk|]; do 2 eexists; reflexivity.
Qed.

Lemma scan_names_total names :
  forallb name_entry_ok names = true ->
  forall acc w, exists ids w', for_in_M names scan_name acc w = (Ok ids, w').
Proof.
  induction names as [|e names IH]; cbn [for_in_M forallb]; intros H acc w.
  - unfold ret. eauto.
  - apply andb_prop in H as [He H]. unfold bind.
    destruct (scan_name_total e acc w He) as (acc' & w' & ->).
    now apply IH.
Qed.

Lemma find_total scene w :
  names_ok scene ->
  exists ids w', find_collider_entities scene w = (Ok ids, w').
Proof.
  intros [Habsent|(names & Hl & Hok)];
    unfold find_collider_entities, getkey, bind, lift, ret.
  - apply contains_lookup in Habsent. rewrite Habsent. eauto.
  - rewrite contains_true by congruence. rewrite Hl. cbn [rbind iterate].
    now apply scan_names_total.
Qed.

Lemma filter_entries_total ids entries :
  forallb entry_ok entries = true ->
  forall acc, exists out, for_in entries (filter_entry ids) acc = Ok out.
Proof.
  induction entries as [|e entries IH]; cbn [for_in forallb]; intros H acc.
  - eauto.
  - apply andb_prop in H as [He H].
    assert (Hstep : exists acc', filter_entry ids e acc = Ok acc').
    { unfold filter_entry, entry_ok in *.
      destruct e as [| | | | |[|first l]|]; eauto.
      destruct (hashable first); [|discriminate]. cbn [rbind].
      destruct (negb _); eauto. }
    destruct Hstep as [acc' ->]. cbn [rbind]. now apply IH.
Qed.

Lemma clean_section_total ids item state w :
  section_ok item = true ->
  exists state' w', clean_section ids item state w = (Ok state', w').
Proof.
  destruct item as [k v], state as [d n]. unfold section_ok, clean_section.
  cbn [snd]. destruct v as [| | | | |entries|]; unfold ret; eauto.
  intros Hok. unfold bind, lift, print.
  destruct (filter_entries_total ids entries Hok []) as [out ->].
  destruct (negb _); eauto.
Qed.

Lemma remove_total ids items :
  forallb section_ok items = true ->
  forall state w,
    exists state' w',
      for_in_M items (clean_section ids) state w = (Ok state', w').
Proof.
  induction items as [|item items IH]; cbn [for_in_M forallb];
    intros H state w.
  - unfold ret. eauto.
  - apply andb_prop in H as [Hitem H]. unfold bind.
    destruct (clean_section_total ids item state w Hitem)
      as (state' & w' & ->).
    now apply IH.
Qed.

(** The cleaner returns on every scene of the shape the data model
    describes. *)
Lemma cleanup_total scene_path w scene :
  files w scene_path = Some scene ->
  names_ok scene ->
  forallb section_ok scene = true ->
  exists w', cleanup_scene_colliders scene_path w = (Ok tt, w').
Proof.
  intros Hfile Hnames Hsections.
  unfold cleanup_scene_colliders, bind.
  unfold print at 1, read_json. cbn [files]. rewrite Hfile.
  destruct (find_total scene
              (World (files w) (stdin w)
                 (stdout w ++ [MsgCleaningUp scene_path])) Hnames)
    as (ids & w1 & ->).
  unfold print at 1.
  destruct ids as [|k ids]; [unfold print; eauto|].
  unfold remove_collider_entities.
  destruct (remove_total (k :: ids) scene Hsections (scene, 0)
              (World (files w1) (stdin w1)
                 (stdout w1
                  ++ [MsgTotalFound (Z.of_nat (List.length (k :: ids)))])))
    as ([d n] & w2 & ->).
  unfold write_json, print. eauto.
Qed.

End CleanerTotal.

(* ================================================================== *)
(** * The Collider Cleaner: properties *)
(* ================================================================== *)

Section CleanerProperties.

Import ColliderCleaner Examples.

(** The backup file and the scene file hold one document, the cleaned
    one, and it is never the document the run read. *)
Lemma backup_is_the_cleaned_document scene_path w w' scene :
  files w scene_path = Some scene ->
  NoDup (map fst scene) ->
  identified scene <> [] ->
  cleanup_scene_colliders scene_path w = (Ok tt, w') ->
  exists cleaned,
    files w' (backup_of scene_path) = Some cleaned
    /\ files w' scene_path = Some cleaned
    /\ cleaned = clean_scene (identified scene) scene
    /\ cleaned <> scene.
Proof.
  intros Hfile Hnd Hsome Hrun.
  destruct (cleanup_with_colliders _ _ _ Hfile _ Hnd Hsome Hrun)
    as [messages ->].
  exists (clean_scene (identified scene) scene).
  unfold files_after_cleanup. cbn [files].
  rewrite !String.eqb_refl.
  destruct (String.eqb (backup_of scene_path) scene_path);
    auto using clean_scene_differs.
Qed.

(** C1 fails on the code.  On the example of the specification, with
    the operator's [y], the backup file holds the cleaned scene, the
    same document as the overwritten scene file, and not the scene the
    run read: the backup is written after the removal pass, from the
    document that pass has changed. *)
Theorem backup_holds_cleaned_scene_not_original :
  let w := world_with "scenes/main.json" collider_scene ["y"] in
  let w' := snd (run (main ["cleanup_colliders.py"; "scenes/main.json"]) w) in
  files w "scenes/main.json" = Some collider_scene
  /\ files w' "scenes/main.json.backup" = Some collider_scene_cleaned
  /\ files w' "scenes/main.json" = Some collider_scene_cleaned
  /\ collider_scene_cleaned <> collider_scene.
Proof.
  repeat split; try (vm_compute; reflexivity). discriminate.
Qed.

(** C5.  In the document a run of the cleaner leaves in the scene
    file, every section whose value is a list holds exactly the
    entries the removal pass retains (those that are not lists, the
    empty lists, and the lists whose first element is not an
    identified collider entity), unchanged and in their order; the
    other sections and the order of the sections are as before. *)
Theorem removal_pass_filters_every_section scene_path w w' scene :
  files w scene_path = Some scene ->
  NoDup (map fst scene) ->
  cleanup_scene_colliders scene_path w = (Ok tt, w') ->
  exists cleaned,
    files w' scene_path = Some cleaned
    /\ map fst cleaned = map fst scene
    /\ (forall section entries,
          lookup section scene = Some (JArr entries) ->
          lookup section cleaned
          = Some (JArr (filter (retained (identified scene)) entries)))
    /\ (forall section section_data,
          lookup section scene = Some section_data ->
          (forall entries, section_data <> JArr entries) ->
          lookup section cleaned = Some section_data).
Proof.
  intros Hfile Hnd Hrun.
  assert (Hcleaned :
            files w' scene_path
            = Some (clean_scene (identified scene) scene)).
  { destruct (identified scene) as [|k ids] eqn:Hids.
    - destruct (cleanup_writes_only_after_removal _ _ _ Hfile _ _ Hrun)
        as [messages ->]; [left; assumption|].
      cbn [printed files]. rewrite Hfile. f_equal.
      unfold clean_scene. rewrite <- (map_id scene) at 1.
      apply map_ext. intros [section v]. unfold clean_item. simpl.
      now rewrite clean_value_nil.
    - assert (Hsome : identified scene <> []) by congruence.
      destruct (backup_is_the_cleaned_document _ _ _ _ Hfile Hnd Hsome Hrun)
        as (cleaned & _ & Hscene & -> & _).
      now rewrite <- Hids. }
  exists (clean_scene (identified scene) scene).
  split; [assumption|]. split; [apply clean_scene_keys|]. split.
  - intros section entries Hl.
    now rewrite lookup_clean_scene, Hl.
  - intros section v Hl Hnotlist.
    rewrite lookup_clean_scene, Hl. simpl. f_equal.
    destruct v; try reflexivity. now destruct (Hnotlist l).
Qed.

Lemma removal_pass_filters_every_section_witness :
  let w := world_with "scenes/main.json" collider_scene [] in
  let w' := snd (cleanup_scene_colliders "scenes/main.json" w) in
  exists cleaned,
    files w' "scenes/main.json" = Some cleaned
    /\ map fst cleaned = map fst collider_scene
    /\ (forall section entries,
          lookup section collider_scene = Some (JArr entries) ->
          lookup section cleaned
          = Some (JArr (filter (retained (identified collider_scene))
                               entries)))
    /\ (forall section section_data,
          lookup section collider_scene = Some section_data ->
          (forall entries, section_data <> JArr entries) ->
          lookup section cleaned = Some section_data).
Proof.
  intros w w'.
  apply (removal_pass_filters_every_section "scenes/main.json" w w'
           collider_scene).
  - reflexivity.
  - repeat constructor; simpl; intuition discriminate.
  - reflexivity.
Defined.

(** C7.  When no entry of the names section names a collider entity,
    the cleaner prints that there is nothing to clean up and returns:
    it writes neither the scene file nor a backup file. *)
Theorem no_collider_names_nothing_written scene_path w scene :
  files w scene_path = Some scene ->
  no_collider_names scene ->
  cleanup_scene_colliders scene_path w
  = (Ok tt, printed w [MsgCleaningUp scene_path; MsgTotalFound 0;
                       MsgNothingToClean]).
Proof.
  intros Hfile Hplain.
  assert (Hfind : forall w0,
             find_collider_entities scene w0 = (Ok [], w0)).
  { intros w0. unfold find_collider_entities, getkey, bind, lift, ret.
    destruct Hplain as [Habsent|(names & Hl & Hnames)].
    - apply contains_lookup in Habsent. now rewrite Habsent.
    - rewrite contains_true by congruence. rewrite Hl. simpl.
      now apply scan_plain. }
  unfold cleanup_scene_colliders, bind.
  unfold print at 1, read_json. cbn [files]. rewrite Hfile, Hfind.
  unfold print, printed. cbn [files stdin stdout List.length Z.of_nat].
  now rewrite <- !app_assoc.
Qed.

Lemma no_collider_names_nothing_written_witness :
  let w := world_with "scenes/main.json" plain_scene [] in
  cleanup_scene_colliders "scenes/main.json" w
  = (Ok tt, printed w [MsgCleaningUp "scenes/main.json"; MsgTotalFound 0;
                       MsgNothingToClean]).
Proof.
  intros w.
  apply (no_collider_names_nothing_written "scenes/main.json" w plain_scene).
  - reflexivity.
  - right. eexists. split; reflexivity.
Defined.

(** C8.  At the prompt, the line the operator types is stripped and
    lowercased.  When the result is [y] or [yes] the tool goes on
    with [cleanup_scene_colliders]; for every other line it prints
    that the cleanup is cancelled, changes no file and exits with
    status 0. *)
Theorem cleanup_runs_only_on_confirmation prog scene_path w line rest :
  files w scene_path <> None ->
  suffix scene_path = ".json" ->
  stdin w = line :: rest ->
  let response := lower (strip line) in
  let asked := World (files w) rest (stdout w ++ preamble) in
  (response = "y" \/ response = "yes" ->
   main [prog; scene_path] w
   = (cleanup_scene_colliders scene_path ;;
      print MsgCompleted ;; print MsgNextStep) asked)
  /\ (response <> "y" -> response <> "yes" ->
      run (main [prog; scene_path]) w = (0, printed asked [MsgCancelled])).
Proof.
  intros Hexists Hsuffix Hline response asked.
  assert (Hmain :
            main [prog; scene_path] w
            = (if String.eqb response "y" || String.eqb response "yes"
               then cleanup_scene_colliders scene_path ;;
                    print MsgCompleted ;; print MsgNextStep
               else print MsgCancelled) asked).
  { unfold main.
    change (negb (Z.of_nat (List.length [prog; scene_path]) =? 2))
      with false.
    cbv iota. cbn [nth].
    unfold bind at 1. unfold path_exists.
    destruct (files w scene_path) as [d|] eqn:Hd; [|congruence].
    cbn [negb]. rewrite Hsuffix.
    change (negb (".json" =? ".json")%string) with false. cbv iota.
    unfold show_migration_guide, bind, print, input.
    cbn [files stdin stdout]. rewrite Hline.
    unfold asked, preamble. rewrite <- !app_assoc. reflexivity. }
  split.
  - intros Hyes. rewrite Hmain.
    destruct Hyes as [-> | ->]; reflexivity.
  - intros Hy Hyes. unfold run. rewrite Hmain.
    apply String.eqb_neq in Hy, Hyes. rewrite Hy, Hyes. reflexivity.
Qed.

Lemma cleanup_runs_only_on_confirmation_witness :
  let w := world_with "scenes/main.json" collider_scene ["  No "] in
  let asked := World (files w) [] (stdout w ++ preamble) in
  (lower (strip "  No ") = "y" \/ lower (strip "  No ") = "yes" ->
   main ["cleanup_colliders.py"; "scenes/main.json"] w
   = (cleanup_scene_colliders "scenes/main.json" ;;
      print MsgCompleted ;; print MsgNextStep) asked)
  /\ (lower (strip "  No ") <> "y" -> lower (strip "  No ") <> "yes" ->
      run (main ["cleanup_colliders.py"; "scenes/main.json"]) w
      = (0, printed asked [MsgCancelled])).
Proof.
  intros w.
  apply (cleanup_runs_only_on_confirmation "cleanup_colliders.py"
           "scenes/main.json" w "  No " []).
  - discriminate.
  - reflexivity.
  - reflexivity.
Defined.

End CleanerProperties.

(* ================================================================== *)
(** * The Tile Expander: more of its behaviour *)
(* ================================================================== *)

Section ExpanderCoverage.

Import TileExpander Examples Scenarios.

(** After a successful run with new dimensions that are not negative,
    the written tilemap is consistent: its [width] and [height] are the
    new dimensions and it holds [new_width * new_height] tiles. *)
Theorem expanded_tilemap_is_consistent
    scene_file old_width old_height new_width new_height w w'
    scene before entity_id fields more after :
  0 <= new_width -> 0 <= new_height ->
  files w scene_file = Some scene ->
  target_at scene before entity_id (JObj fields) more after ->
  expand_tilemap scene_file old_width old_height new_width new_height w
    = (Ok true, w') ->
  exists scene' fields' tiles',
    files w' scene_file = Some scene'
    /\ target_at scene' before entity_id (JObj fields') more after
    /\ tiles_of fields' = JArr tiles'
    /\ lookup "width" fields' = Some (JInt new_width)
    /\ lookup "height" fields' = Some (JInt new_height)
    /\ Z.of_nat (List.length tiles') = new_width * new_height.
Proof.
  intros Hw Hh Hfile Htarget Hrun.
  destruct (expand_tilemap_expands _ _ _ _ _ _ _ _ _ _ _ _ _
              Hfile Htarget Hrun) as (new_tiles & _ & Hbuild & ->).
  destruct (expanded_world_scene w scene_file _ _ _ _ _ _ new_tiles
              old_width old_height new_width new_height Htarget)
    as (scene' & Hfile' & Htarget').
  exists scene', (expanded_fields fields new_tiles new_width new_height),
    new_tiles.
  split; [assumption|]. split; [assumption|].
  split; [apply tiles_of_expanded|].
  unfold expanded_fields. split; [|split].
  - rewrite lookup_setitem_other by discriminate. apply lookup_setitem_same.
  - apply lookup_setitem_same.
  - rewrite (build_tiles_length _ _ _ _ _ _ Hbuild). nia.
Qed.

Lemma expanded_tilemap_is_consistent_witness :
  let w := world_with "main.json" strip_scene [] in
  let w' := snd (expand_tilemap "main.json" 2 1 3 2 w) in
  exists scene' fields' tiles',
    files w' "main.json" = Some scene'
    /\ target_at scene' [JArr [JInt 7; JObj [("tiles", JArr [])]]]
         (JInt 315) (JObj fields') [] []
    /\ tiles_of fields' = JArr tiles'
    /\ lookup "width" fields' = Some (JInt 3)
    /\ lookup "height" fields' = Some (JInt 2)
    /\ Z.of_nat (List.length tiles') = 3 * 2.
Proof.
  intros w w'.
  apply (expanded_tilemap_is_consistent "main.json" 2 1 3 2 w w'
           strip_scene [JArr [JInt 7; JObj [("tiles", JArr [])]]]
           (JInt 315) strip_fields [] []).
  - lia.
  - lia.
  - reflexivity.
  - repeat split; reflexivity.
  - reflexivity.
Defined.

(** Whatever the new dimensions, larger or smaller than the old ones,
    the cells that both grids have keep their tiles: the tile at
    [(x, y)] of the new grid is the tile at [(x, y)] of the old grid. *)
Theorem common_cells_keep_their_tiles
    scene_file old_width old_height new_width new_height w w'
    scene before entity_id fields more after tiles :
  files w scene_file = Some scene ->
  target_at scene before entity_id (JObj fields) more after ->
  tiles_of fields = JArr tiles ->
  expand_tilemap scene_file old_width old_height new_width new_height w
    = (Ok true, w') ->
  exists scene' fields' tiles',
    files w' scene_file = Some scene'
    /\ target_at scene' before entity_id (JObj fields') more after
    /\ tiles_of fields' = JArr tiles'
    /\ forall x y,
         0 <= x < Z.min old_width new_width ->
         0 <= y < Z.min old_height new_height ->
         exists tile,
           nth_error tiles (Z.to_nat (y * old_width + x)) = Some tile
           /\ nth_error tiles' (Z.to_nat (y * new_width + x)) = Some tile.
Proof.
  intros Hfile Htarget Htiles Hrun.
  destruct (expand_tilemap_expands _ _ _ _ _ _ _ _ _ _ _ _ _
              Hfile Htarget Hrun) as (new_tiles & _ & Hbuild & ->).
  destruct (expanded_world_scene w scene_file _ _ _ _ _ _ new_tiles
              old_width old_height new_width new_height Htarget)
    as (scene' & Hfile' & Htarget').
  exists scene', (expanded_fields fields new_tiles new_width new_height),
    new_tiles.
  split; [assumption|]. split; [assumption|].
  split; [apply tiles_of_expanded|].
  intros x y Hx Hy.
  destruct (build_tiles_cell _ _ _ _ _ _ Hbuild x y) as (tile & Hcopy & Hnth);
    [lia|lia|].
  exists tile. split; [|assumption].
  apply copy_tile_source in Hcopy. rewrite Htiles in Hcopy.
  rewrite !Z.mod_small in Hcopy by lia. simpl in Hcopy.
  rewrite py_index_nonneg in Hcopy by nia.
  destruct (nth_error tiles _); congruence.
Qed.

Lemma common_cells_keep_their_tiles_witness :
  let w := world_with "main.json" square_scene [] in
  let w' := snd (expand_tilemap "main.json" 2 2 1 3 w) in
  exists scene' fields' tiles',
    files w' "main.json" = Some scene'
    /\ target_at scene' [] (JInt 315) (JObj fields') [] []
    /\ tiles_of fields' = JArr tiles'
    /\ forall x y,
         0 <= x < Z.min 2 1 -> 0 <= y < Z.min 2 3 ->
         exists t,
           nth_error [tile 0; tile 1; tile 2; tile 3] (Z.to_nat (y * 2 + x))
             = Some t
           /\ nth_error tiles' (Z.to_nat (y * 1 + x)) = Some t.
Proof.
  intros w w'.
  apply (common_cells_keep_their_tiles "main.json" 2 2 1 3 w w'
           square_scene [] (JInt 315) square_fields [] []
           [tile 0; tile 1; tile 2; tile 3]).
  - reflexivity.
  - repeat split; reflexivity.
  - reflexivity.
  - reflexivity.
Defined.

Lemma range_positive n : 0 < n -> exists rest, range n = 0 :: rest.
Proof.
  intros Hn. unfold range.
  destruct (Z.to_nat n) as [|k] eqn:Hk; [lia|].
  simpl. eauto.
Qed.

(** The first cell the loops fill is cell [(0, 0)]: when its copy
    raises, so does the whole construction. *)
Lemma build_tiles_first_cell existing ow oh nw nh e :
  0 < nw -> 0 < nh ->
  copy_tile existing ow oh 0 0 = Raise e ->
  build_tiles existing ow oh nw nh = Raise e.
Proof.
  intros Hw Hh Hcopy. unfold build_tiles.
  destruct (range_positive nh Hh) as [ys ->].
  destruct (range_positive nw Hw) as [xs ->].
  cbn [for_in]. rewrite Hcopy. reflexivity.
Qed.

(** A run up to the construction of the new tiles: when that raises,
    the run raises the same exception and the world is as it was. *)
Lemma expand_tilemap_build_raises scene_file ow oh nw nh w
    scene before entity_id fields more after e :
  files w scene_file = Some scene ->
  target_at scene before entity_id (JObj fields) more after ->
  fields <> [] ->
  len (tiles_of fields) = Ok (ow * oh) ->
  build_tiles (tiles_of fields) ow oh nw nh = Raise e ->
  expand_tilemap scene_file ow oh nw nh w = (Raise e, w).
Proof.
  intros Hfile Htarget Hne Hlen Hbuild.
  destruct (target_search _ _ _ _ _ _ Htarget) as (entries & Hit & Hfind).
  unfold expand_tilemap, bind, read_json, lift, ret, print, write_json.
  rewrite Hfile, Hit, Hfind.
  destruct fields as [|kv fields]; [congruence|].
  cbn [truthy negb get_method]. fold (tiles_of (kv :: fields)).
  rewrite Hlen, Z.eqb_refl. cbn [negb]. now rewrite Hbuild.
Qed.

(** Tiles must be lists or mappings: when the first tile is a number, a
    string, a boolean or [null], it has no [copy] method, and the run
    raises [AttributeError] before it prints or writes anything. *)
Theorem scalar_tile_raises_attribute_error
    scene_file old_width old_height new_width new_height w
    scene before entity_id fields more after first_tile tiles :
  0 < old_width -> 0 < old_height -> 0 < new_width -> 0 < new_height ->
  files w scene_file = Some scene ->
  target_at scene before entity_id (JObj fields) more after ->
  tiles_of fields = JArr (first_tile :: tiles) ->
  Z.of_nat (List.length (first_tile :: tiles)) = old_width * old_height ->
  copyable first_tile = false ->
  expand_tilemap scene_file old_width old_height new_width new_height w
  = (Raise AttributeError, w).
Proof.
  intros How Hoh Hnw Hnh Hfile Htarget Htiles Hlen Hscalar.
  apply expand_tilemap_build_raises
    with (scene := scene) (before := before) (entity_id := entity_id)
         (fields := fields) (more := more) (after := after);
    try assumption.
  - intros ->. discriminate.
  - rewrite Htiles. cbn [len]. now rewrite Hlen.
  - apply build_tiles_first_cell; try assumption.
    rewrite Htiles. unfold copy_tile, py_mod.
    destruct (old_width =? 0) eqn:E1; [apply Z.eqb_eq in E1; lia|].
    destruct (old_height =? 0) eqn:E2; [apply Z.eqb_eq in E2; lia|].
    cbn [rbind]. rewrite !Z.mod_0_l by lia.
    change (getitem (JArr (first_tile :: tiles)) (0 * old_width + 0))
      with (Ok first_tile).
    cbn [rbind]. destruct first_tile; try reflexivity; discriminate.
Qed.

Lemma scalar_tile_raises_attribute_error_witness :
  let w := world_with "main.json" numbers_scene [] in
  expand_tilemap "main.json" 2 1 4 2 w = (Raise AttributeError, w).
Proof.
  intros w.
  apply (scalar_tile_raises_attribute_error "main.json" 2 1 4 2 w
           numbers_scene [] (JInt 315)
           [("tiles", JArr [JInt 0; JInt 1]);
            ("width", JInt 2); ("height", JInt 1)]
           [] [] (JInt 0) [JInt 1]).
  - lia.
  - lia.
  - lia.
  - lia.
  - reflexivity.
  - repeat split; reflexivity.
  - reflexivity.
  - reflexivity.
  - reflexivity.
Defined.

(** An old width or height of 0 passes the count check on a tilemap
    without tiles, and the first [%] then divides by zero: the run
    raises [ZeroDivisionError] and the world is as it was. *)
Theorem zero_old_dimension_divides_by_zero
    scene_file old_width old_height new_width new_height w
    scene before entity_id fields more after :
  old_width = 0 \/ old_height = 0 ->
  0 < new_width -> 0 < new_height ->
  files w scene_file = Some scene ->
  target_at scene before entity_id (JObj fields) more after ->
  fields <> [] ->
  len (tiles_of fields) = Ok 0 ->
  expand_tilemap scene_file old_width old_height new_width new_height w
  = (Raise ZeroDivisionError, w).
Proof.
  intros Hzero Hnw Hnh Hfile Htarget Hne Hlen.
  apply expand_tilemap_build_raises
    with (scene := scene) (before := before) (entity_id := entity_id)
         (fields := fields) (more := more) (after := after);
    try assumption.
  - rewrite Hlen. f_equal. nia.
  - apply build_tiles_first_cell; try assumption.
    unfold copy_tile, py_mod.
    destruct (old_width =? 0) eqn:E1; [reflexivity|].
    apply Z.eqb_neq in E1.
    destruct Hzero as [?| ->]; [contradiction|]. reflexivity.
Qed.

Lemma zero_old_dimension_divides_by_zero_witness :
  let w := world_with "main.json" empty_scene [] in
  expand_tilemap "main.json" 0 0 2 2 w = (Raise ZeroDivisionError, w).
Proof.
  intros w.
  apply (zero_old_dimension_divides_by_zero "main.json" 0 0 2 2 w
           empty_scene [] (JInt 315)
           [("width", JInt 0); ("height", JInt 0)] [] []).
  - now left.
  - lia.
  - lia.
  - reflexivity.
  - repeat split; reflexivity.
  - discriminate.
  - reflexivity.
Defined.

(** The tilemap data of entity 315 must be a mapping: any other value
    that Python takes for true (a non-empty list or string, a number
    other than zero, [true]) has no [get] method, and the run raises
    [AttributeError] without printing or writing. *)
Theorem non_mapping_data_raises_attribute_error
    scene_file old_width old_height new_width new_height w
    scene before entity_id data more after :
  files w scene_file = Some scene ->
  target_at scene before entity_id data more after ->
  truthy data = true ->
  (forall fields, data <> JObj fields) ->
  expand_tilemap scene_file old_width old_height new_width new_height w
  = (Raise AttributeError, w).
Proof.
  intros Hfile Htarget Htruthy Hnot.
  destruct (target_search _ _ _ _ _ _ Htarget) as (entries & Hit & Hfind).
  unfold expand_tilemap, bind, read_json, lift, ret, print.
  rewrite Hfile, Hit, Hfind, Htruthy. cbn [negb].
  destruct data; try reflexivity. now destruct (Hnot d).
Qed.

Lemma non_mapping_data_raises_attribute_error_witness :
  let w := world_with "main.json" list_data_scene [] in
  expand_tilemap "main.json" 1 1 2 2 w = (Raise AttributeError, w).
Proof.
  intros w.
  apply (non_mapping_data_raises_attribute_error "main.json" 1 1 2 2 w
           list_data_scene [] (JInt 315) (JArr [tile 0]) [] []).
  - reflexivity.
  - repeat split; reflexivity.
  - reflexivity.
  - discriminate.
Defined.



(** On a scene whose tilemap of entity 315 holds 100 tiles, each a list
    or a mapping, the tool succeeds: it prints the two lines of the
    expansion and [Successfully expanded tilemap!], exits with status
    0, and the tilemap it writes holds 400 tiles. *)
Theorem expander_succeeds_on_ten_by_ten w
    scene before entity_id fields more after tiles :
  files w scene_file = Some scene ->
  target_at scene before entity_id (JObj fields) more after ->
  tiles_of fields = JArr tiles ->
  List.length tiles = 100%nat ->
  forallb copyable tiles = true ->
  exists w' scene' fields' tiles',
    run main w = (0, w')
    /\ stdin w' = stdin w
    /\ stdout w' = stdout w ++ [MsgExpanded 10 10 20 20; MsgTileCount 100 400;
                                MsgExpandSucceeded]
    /\ files w' scene_file = Some scene'
    /\ target_at scene' before entity_id (JObj fields') more after
    /\ tiles_of fields' = JArr tiles'
    /\ List.length tiles' = 400%nat.
Proof.
  intros Hfile Htarget Htiles Hlen Hcopy.
  assert (Hcount : Z.of_nat (List.length tiles) = 10 * 10) by lia.
  assert (Hall : Forall (fun t => copyable t = true) tiles).
  { apply Forall_forall. intros t Ht.
    rewrite forallb_forall in Hcopy. now apply Hcopy. }
  destruct (expand_tilemap_total scene_file 10 10 20 20 w _ _ _ _ _ _ _
              ltac:(lia) ltac:(lia) Hfile Htarget Htiles Hcount Hall)
    as [w1 Hrun].
  destruct (expand_tilemap_expands _ _ _ _ _ _ _ _ _ _ _ _ _
              Hfile Htarget Hrun) as (new_tiles & _ & Hbuild & Hw1).
  destruct (expanded_world_scene w scene_file _ _ _ _ _ _ new_tiles
              10 10 20 20 Htarget) as (scene' & Hfile' & Htarget').
  pose proof (build_tiles_length _ _ _ _ _ _ Hbuild) as Hnew.
  change (Z.to_nat 20 * Z.to_nat 20)%nat with 400%nat in Hnew.
  exists (printed w1 [MsgExpandSucceeded]), scene',
    (expanded_fields fields new_tiles 20 20), new_tiles.
  split; [unfold run, main, bind; rewrite Hrun; reflexivity|].
  subst w1. unfold printed, expanded_world. cbn [files stdin stdout].
  split; [reflexivity|]. split.
  { rewrite Hnew, <- app_assoc. reflexivity. }
  split; [exact Hfile'|]. split; [exact Htarget'|].
  split; [apply tiles_of_expanded|exact Hnew].
Qed.

Lemma expander_succeeds_on_ten_by_ten_witness :
  let w := world_with scene_file ten_scene [] in
  exists w' scene' fields' tiles',
    run main w = (0, w')
    /\ stdin w' = stdin w
    /\ stdout w' = stdout w ++ [MsgExpanded 10 10 20 20; MsgTileCount 100 400;
                                MsgExpandSucceeded]
    /\ files w' scene_file = Some scene'
    /\ target_at scene' [] (JInt 315) (JObj fields') [] []
    /\ tiles_of fields' = JArr tiles'
    /\ List.length tiles' = 400%nat.
Proof.
  intros w.
  apply (expander_succeeds_on_ten_by_ten w ten_scene [] (JInt 315)
           ten_fields [] [] (map tile (range 100))).
  - reflexivity.
  - repeat split; reflexivity.
  - reflexivity.
  - reflexivity.
  - reflexivity.
Defined.

Lemma setitem_same_value k v d : lookup k d = Some v -> setitem k v d = d.
Proof.
  induction d as [|[k0 x] d IH]; simpl; [discriminate|].
  destruct (String.eqb k k0) eqn:E.
  - now intros [= ->].
  - intros H. now rewrite IH.
Qed.

(** The three assignments change nothing when made a second time. *)
Lemma expanded_fields_again fields new_tiles nw nh :
  expanded_fields (expanded_fields fields new_tiles nw nh) new_tiles nw nh
  = expanded_fields fields new_tiles nw nh.
Proof.
  set (E := expanded_fields fields new_tiles nw nh).
  assert (Ht : lookup "tiles" E = Some (JArr new_tiles)).
  { unfold E, expanded_fields.
    rewrite !lookup_setitem_other by discriminate.
    apply lookup_setitem_same. }
  assert (Hw : lookup "width" E = Some (JInt nw)).
  { unfold E, expanded_fields.
    rewrite lookup_setitem_other by discriminate.
    apply lookup_setitem_same. }
  assert (Hh : lookup "height" E = Some (JInt nh)).
  { unfold E, expanded_fields. apply lookup_setitem_same. }
  unfold expanded_fields at 1.
  now rewrite (setitem_same_value _ _ _ Ht), (setitem_same_value _ _ _ Hw),
    (setitem_same_value _ _ _ Hh).
Qed.

Lemma Forall2_weaken_In {A B} (P Q : A -> B -> Prop) l l' :
  (forall a b, In a l -> P a b -> Q a b) ->
  Forall2 P l l' -> Forall2 Q l l'.
Proof.
  intros HPQ H. induction H as [|a b l l' Hab _ IH]; constructor.
  - apply HPQ; [now left|assumption].
  - apply IH. intros a' b' Hin. apply HPQ. now right.
Qed.

Lemma range_In n x : In x (range n) -> 0 <= x < n.
Proof.
  unfold range. rewrite in_map_iff. intros (k & <- & Hk).
  apply in_seq in Hk. lia.
Qed.

Lemma copy_is_copyable t t' : copy t = Ok t' -> t' = t /\ copy t' = Ok t'.
Proof. destruct t; simpl; try discriminate; now intros [= <-]. Qed.

(** A grid built with equal old and new dimensions is rebuilt from
    itself unchanged. *)
Lemma build_tiles_again existing ow oh new_tiles :
  build_tiles existing ow oh ow oh = Ok new_tiles ->
  build_tiles (JArr new_tiles) ow oh ow oh = Ok new_tiles.
Proof.
  intros Hbuild.
  destruct (build_tiles_grid _ _ _ _ _ _ Hbuild) as (rows & Heq & Hrows).
  unfold build_tiles.
  rewrite (for_in_rows_total
             (fun y x => copy_tile (JArr new_tiles) ow oh x y)
             (range ow) (range oh) rows); [now rewrite Heq|].
  revert Hrows. apply Forall2_weaken_In. intros y row Hy.
  apply Forall2_weaken_In. intros x t Hx Hcopy.
  apply range_In in Hx, Hy.
  destruct (build_tiles_cell _ _ _ _ _ _ Hbuild x y Hx Hy)
    as (t' & Hcopy' & Hnth).
  rewrite Hcopy in Hcopy'. injection Hcopy' as <-.
  unfold copy_tile, py_mod in *.
  destruct (ow =? 0); [discriminate|].
  destruct (oh =? 0); [discriminate|]. cbn [rbind] in *.
  rewrite !Z.mod_small by lia. cbn [getitem].
  rewrite py_index_nonneg by nia. rewrite Hnth. cbn [rbind].
  destruct (getitem existing _) as [t0|]; [|discriminate].
  cbn [rbind] in Hcopy. now apply copy_is_copyable in Hcopy.
Qed.

(** With equal old and new dimensions (not negative), a second run
    succeeds like the first and writes the document the first run
    wrote: every file is the same after it. *)
Theorem expand_to_same_dimensions_twice
    scene_file old_width old_height w w1 :
  0 <= old_width -> 0 <= old_height ->
  expand_tilemap scene_file old_width old_height old_width old_height w
    = (Ok true, w1) ->
  exists w2,
    expand_tilemap scene_file old_width old_height old_width old_height w1
      = (Ok true, w2)
    /\ forall p, files w2 p = files w1 p.
Proof.
  intros How Hoh Hrun.
  apply expand_tilemap_true in Hrun
    as (scene & before & id & fields & more & after & new_tiles
        & Hfile & Htarget & _ & Hbuild & ->).
  destruct (expanded_world_scene w scene_file _ _ _ _ _ _ new_tiles
              old_width old_height old_width old_height Htarget)
    as (scene' & Hfile' & Htarget').
  set (w1 := expanded_world w scene_file scene before id fields more after
               new_tiles old_width old_height old_width old_height) in *.
  eexists. split.
  - apply expand_tilemap_succeeds
      with (scene := scene') (before := before) (entity_id := id)
           (fields := expanded_fields fields new_tiles old_width old_height)
           (more := more) (after := after) (new_tiles := new_tiles).
    + exact Hfile'.
    + exact Htarget'.
    + apply setitem_nonempty.
    + rewrite tiles_of_expanded. cbn [len]. f_equal.
      rewrite (build_tiles_length _ _ _ _ _ _ Hbuild). nia.
    + rewrite tiles_of_expanded. now apply build_tiles_again with (1 := Hbuild).
  - intros p. unfold expanded_world at 1. cbn [files].
    destruct (String.eqb p scene_file) eqn:Hp; [|reflexivity].
    apply String.eqb_eq in Hp. subst p. rewrite Hfile'. f_equal.
    rewrite expanded_fields_again.
    apply setitem_same_value. now destruct Htarget'.
Qed.

Lemma expand_to_same_dimensions_twice_witness :
  let w := world_with "main.json" square_scene [] in
  let w1 := snd (expand_tilemap "main.json" 2 2 2 2 w) in
  exists w2,
    expand_tilemap "main.json" 2 2 2 2 w1 = (Ok true, w2)
    /\ forall p, files w2 p = files w1 p.
Proof.
  intros w w1.
  apply (expand_to_same_dimensions_twice "main.json" 2 2 w w1).
  - lia.
  - lia.
  - reflexivity.
Defined.

End ExpanderCoverage.

(* ================================================================== *)
(** * The Collider Cleaner: more of its behaviour *)
(* ================================================================== *)

Section CleanerCoverage.

Import ColliderCleaner Examples Scenarios Reports.

(** The two worlds a run of [cleanup_scene_colliders] can end in: the
    one it started in with more printed, or that with the backup and
    the scene written. *)
Lemma cleanup_world scene_path w outcome w' :
  cleanup_scene_colliders scene_path w = (outcome, w') ->
  (exists messages, w' = printed w messages)
  \/ (exists cleaned messages,
        outcome = Ok tt
        /\ w' = World (files_after_cleanup w scene_path cleaned)
                      (stdin w) (stdout w ++ messages)).
Proof.
  unfold cleanup_scene_colliders, bind.
  unfold print at 1, read_json. cbn [files].
  destruct (files w scene_path) as [scene|].
  2:{ intros [= <- <-]. left. eexists. reflexivity. }
  destruct (find_collider_entities scene _) as [[ids|e] w1] eqn:Hfind.
  2:{ intros [= <- <-]. left. apply find_only_prints in Hfind as [m ->].
      unfold printed. cbn [files stdin stdout].
      rewrite <- !app_assoc. eauto. }
  apply find_only_prints in Hfind as [m ->].
  unfold print at 1.
  destruct ids as [|k ids].
  - unfold print. intros [= <- <-]. left.
    unfold printed. cbn [files stdin stdout].
    rewrite <- !app_assoc. eauto.
  - destruct (remove_collider_entities _ _ _) as [[[d n]|e] w2] eqn:Hrem.
    + apply remove_only_prints in Hrem as [m2 ->].
      unfold write_json, print. cbn [files stdin stdout].
      intros [= <- <-]. right. exists d.
      unfold printed, files_after_cleanup, backup_of.
      cbn [files stdin stdout]. rewrite <- !app_assoc. eauto.
    + intros [= <- <-]. left. apply remove_only_prints in Hrem as [m2 ->].
      unfold printed. cbn [files stdin stdout].
      rewrite <- !app_assoc. eauto.
Qed.

(** Whatever its outcome, [cleanup_scene_colliders] touches no file but
    the scene file and its backup, and reads nothing from the
    operator. *)
Theorem cleanup_touches_two_files_only scene_path w outcome w' :
  cleanup_scene_colliders scene_path w = (outcome, w') ->
  stdin w' = stdin w
  /\ forall p, p <> scene_path -> p <> backup_of scene_path ->
               files w' p = files w p.
Proof.
  intros Hrun.
  destruct (cleanup_world _ _ _ _ Hrun)
    as [[messages ->]|(cleaned & messages & _ & ->)].
  - split; reflexivity.
  - split; [reflexivity|]. intros p Hp Hb. cbn [files].
    unfold files_after_cleanup.
    apply String.eqb_neq in Hp, Hb. now rewrite Hp, Hb.
Qed.

Lemma cleanup_touches_two_files_only_witness :
  let w := world_with "scenes/main.json" collider_scene ["later"] in
  let w' := snd (cleanup_scene_colliders "scenes/main.json" w) in
  stdin w' = stdin w
  /\ forall p, p <> "scenes/main.json" ->
               p <> backup_of "scenes/main.json" ->
               files w' p = files w p.
Proof.
  intros w w'.
  apply (cleanup_touches_two_files_only "scenes/main.json" w
           (fst (cleanup_scene_colliders "scenes/main.json" w)) w').
  reflexivity.
Defined.

(** [main] once the arguments are accepted and the operator has typed a
    line. *)
Lemma main_after_prompt prog scene_path w scene line rest :
  files w scene_path = Some scene ->
  suffix scene_path = ".json" ->
  stdin w = line :: rest ->
  main [prog; scene_path] w
  = (if String.eqb (lower (strip line)) "y"
        || String.eqb (lower (strip line)) "yes"
     then cleanup_scene_colliders scene_path ;;
          print MsgCompleted ;; print MsgNextStep
     else print MsgCancelled)
      (World (files w) rest (stdout w ++ preamble)).
Proof.
  intros Hfile Hsuffix Hline. unfold main.
  change (negb (Z.of_nat (List.length [prog; scene_path]) =? 2)) with false.
  cbv iota. cbn [nth].
  unfold bind at 1. unfold path_exists. rewrite Hfile.
  cbn [negb]. rewrite Hsuffix.
  change (negb (".json" =? ".json")%string) with false. cbv iota.
  unfold show_migration_guide, bind, print, input.
  cbn [files stdin stdout]. rewrite Hline.
  unfold preamble. rewrite <- !app_assoc. reflexivity.
Qed.






Lemma string_app_assoc (a b c : string) :
  ((a ++ b) ++ c = a ++ (b ++ c))%string.
Proof. induction a as [|x a IH]; simpl; [reflexivity|now rewrite IH]. Qed.

Lemma string_app_length (a b : string) :
  String.length (a ++ b)%string = (String.length a + String.length b)%nat.
Proof. induction a as [|x a IH]; simpl; [reflexivity|now rewrite IH]. Qed.

Lemma substring_app (a b : string) :
  substring 0 (String.length a) (a ++ b)%string = a.
Proof.
  induction a as [|x a IH]; simpl.
  - now destruct b.
  - now rewrite IH.
Qed.

(** [rsplit] cuts the string in two. *)
Lemma rsplit_app c s before rest :
  rsplit c s = Some (before, rest) -> s = (before ++ rest)%string.
Proof.
  revert before rest. induction s as [|a s IH]; simpl; [discriminate|].
  intros before rest.
  destruct (rsplit c s) as [[b r]|].
  - intros [= <- <-]. simpl. now rewrite (IH b r).
  - destruct (Ascii.eqb a c); [|discriminate]. now intros [= <- <-].
Qed.

(** A path ends with its name, and so with its suffix. *)
Lemma path_ends_with_suffix p :
  exists front, p = (front ++ suffix p)%string.
Proof.
  assert (Hname : exists dir, p = (dir ++ name p)%string).
  { unfold name. destruct (rsplit "/" p) as [[dir [|c last]]|] eqn:Hsplit.
    - now exists "".
    - apply rsplit_app in Hsplit. exists (dir ++ String c "")%string.
      rewrite string_app_assoc. exact Hsplit.
    - now exists "". }
  destruct Hname as [dir Hname]. unfold suffix.
  destruct (rsplit "." (name p)) as [[stem ext]|] eqn:Hsplit.
  - apply rsplit_app in Hsplit.
    destruct (_ || _).
    + exists p. clear. induction p; simpl; congruence.
    + exists (dir ++ stem)%string. rewrite string_app_assoc.
      now rewrite <- Hsplit.
  - exists p. clear. induction p; simpl; congruence.
Qed.

(** The backup path of a path with suffix [.json]. *)
Lemma backup_of_json_path scene_path :
  suffix scene_path = ".json" ->
  backup_of scene_path = (scene_path ++ ".backup")%string
  /\ backup_of scene_path <> scene_path.
Proof.
  intros Hsuffix.
  assert (Hpath : backup_of scene_path = (scene_path ++ ".backup")%string).
  { destruct (path_ends_with_suffix scene_path) as [front Hfront].
    unfold backup_of, with_suffix. rewrite Hsuffix in *.
    clear Hsuffix. subst scene_path. rewrite string_app_length.
    replace (String.length front + String.length ".json"
             - String.length ".json")%nat
      with (String.length front) by lia.
    rewrite substring_app. now rewrite string_app_assoc. }
  split; [assumption|]. rewrite Hpath. intros Heq.
  apply (f_equal String.length) in Heq.
  rewrite string_app_length in Heq. simpl in Heq. lia.
Qed.

(** For a scene path that [main] accepts, the backup path is the scene
    path followed by [.backup]: another path than the scene's, so that
    the backup never lands on the scene file. *)
Theorem backup_path_appends_backup scene_path :
  suffix scene_path = ".json" ->
  backup_of scene_path = (scene_path ++ ".backup")%string
  /\ backup_of scene_path <> scene_path.
Proof. exact (backup_of_json_path scene_path). Qed.

Lemma backup_path_appends_backup_witness :
  backup_of "projects/Celeste Demo/scenes/main.json"
  = ("projects/Celeste Demo/scenes/main.json" ++ ".backup")%string
  /\ backup_of "projects/Celeste Demo/scenes/main.json"
     <> "projects/Celeste Demo/scenes/main.json".
Proof.
  apply (backup_path_appends_backup "projects/Celeste Demo/scenes/main.json").
  reflexivity.
Defined.

(** A confirmed run on a scene of the data model's shape that names
    collider entities: the tool exits with status 0, the scene file and
    the backup file hold the cleaned document, the other files are as
    they were, and one line of input is consumed. *)
Theorem confirmed_cleanup_succeeds prog scene_path w scene line rest :
  files w scene_path = Some scene ->
  suffix scene_path = ".json" ->
  stdin w = line :: rest ->
  lower (strip line) = "y" \/ lower (strip line) = "yes" ->
  NoDup (map fst scene) ->
  names_ok scene ->
  forallb section_ok scene = true ->
  identified scene <> [] ->
  exists w',
    run (main [prog; scene_path]) w = (0, w')
    /\ stdin w' = rest
    /\ files w' scene_path = Some (clean_scene (identified scene) scene)
    /\ files w' (scene_path ++ ".backup")%string
       = Some (clean_scene (identified scene) scene)
    /\ forall p, p <> scene_path -> p <> (scene_path ++ ".backup")%string ->
                 files w' p = files w p.
Proof.
  intros Hfile Hsuffix Hline Hyes Hnd Hnames Hsections Hsome.
  destruct (backup_of_json_path scene_path Hsuffix) as [Hbackup _].
  set (asked := World (files w) rest (stdout w ++ preamble)).
  destruct (cleanup_total scene_path asked scene Hfile Hnames Hsections)
    as [w1 Hclean].
  destruct (cleanup_with_colliders scene_path asked scene Hfile w1
              Hnd Hsome Hclean) as [messages Hw1].
  exists (printed w1 [MsgCompleted; MsgNextStep]). split.
  - unfold run. rewrite (main_after_prompt _ _ _ _ _ _ Hfile Hsuffix Hline).
    assert (Hconfirm : String.eqb (lower (strip line)) "y"
                       || String.eqb (lower (strip line)) "yes" = true)
      by (destruct Hyes as [-> | ->]; reflexivity).
    rewrite Hconfirm. fold asked. unfold bind. rewrite Hclean.
    unfold print, printed. cbn [files stdin stdout].
    now rewrite <- app_assoc.
  - subst w1. unfold printed, files_after_cleanup. cbn [files stdin stdout].
    rewrite Hbackup. rewrite !String.eqb_refl.
    split; [reflexivity|]. split; [reflexivity|]. split.
    + now destruct (String.eqb _ scene_path).
    + intros p Hp Hb. apply String.eqb_neq in Hp, Hb. now rewrite Hp, Hb.
Qed.

Lemma confirmed_cleanup_succeeds_witness :
  let w := world_with "scenes/main.json" collider_scene [" Yes"; "more"] in
  exists w',
    run (main ["cleanup_colliders.py"; "scenes/main.json"]) w = (0, w')
    /\ stdin w' = ["more"]
    /\ files w' "scenes/main.json"
       = Some (clean_scene (identified collider_scene) collider_scene)
    /\ files w' ("scenes/main.json" ++ ".backup")%string
       = Some (clean_scene (identified collider_scene) collider_scene)
    /\ forall p, p <> "scenes/main.json" ->
                 p <> ("scenes/main.json" ++ ".backup")%string ->
                 files w' p = files w p.
Proof.
  intros w.
  apply (confirmed_cleanup_succeeds "cleanup_colliders.py" "scenes/main.json"
           w collider_scene " Yes" ["more"]).
  - reflexivity.
  - reflexivity.
  - reflexivity.
  - right. reflexivity.
  - repeat constructor; simpl; intuition discriminate.
  - right. eexists. split; reflexivity.
  - reflexivity.
  - discriminate.
Defined.

Lemma for_in_M_app {A S} (body : A -> S -> M S) xs ys acc w :
  for_in_M (xs ++ ys) body acc w
  = match for_in_M xs body acc w with
    | (Ok acc', w') => for_in_M ys body acc' w'
    | (Raise e, w') => (Raise e, w')
    end.
Proof.
  revert acc w. induction xs as [|x xs IH]; intros acc w; cbn [app for_in_M].
  - reflexivity.
  - unfold bind. destruct (body x acc w) as [[acc'|e] w']; [apply IH|].
    reflexivity.
Qed.

(** A names entry that the scan passes without adding anything is
    passed so in every state. *)
Lemma scan_name_plain name_entry acc w acc' w' :
  scan_name name_entry acc w = (Ok acc', w') ->
  collider_key name_entry = None ->
  forall acc2 w2, scan_name name_entry acc2 w2 = (Ok acc2, w2).
Proof.
  unfold scan_name, bind, lift, ret, print.
  destruct (getitem name_entry 0) as [id|] eqn:H0; [|discriminate].
  destruct (getitem name_entry 1) as [nm|] eqn:H1; [|discriminate].
  destruct (is_collider_name nm) as [[|]|] eqn:Hb; try discriminate;
    [|reflexivity].
  intros Hrun Hkey. exfalso.
  destruct name_entry as [| | | |s|l|d]; simpl in H0, H1; try discriminate.
  - apply chars_index in H1 as [c ->].
    rewrite char_is_no_collider_name in Hb. discriminate.
  - apply py_index_0 in H0 as [l' ->].
    apply py_index_1 in H1 as [l'' ->].
    destruct nm; try discriminate.
    unfold is_collider_name, startswith, rbind in Hb.
    unfold collider_key, has_collider_name in Hkey.
    destruct (hashable id) as [k|]; [|discriminate].
    destruct (String.prefix "CompositeCollider" s); [discriminate|].
    destruct (String.prefix "Collider_" s); discriminate.
Qed.

(** In a scan that returns, every step returned. *)
Lemma scan_names_steps names :
  forall acc w ids w',
    for_in_M names scan_name acc w = (Ok ids, w') ->
    Forall (fun e => exists a w0 a' w0', scan_name e a w0 = (Ok a', w0'))
           names.
Proof.
  induction names as [|e names IH]; cbn [for_in_M]; intros acc w ids w' Hrun.
  - constructor.
  - unfold bind in Hrun.
    destruct (scan_name e acc w) as [[acc1|] w1] eqn:Hstep; [|discriminate].
    constructor; eauto 6.
Qed.

Lemma scan_names_quiet names :
  Forall (fun e => exists a w0 a' w0', scan_name e a w0 = (Ok a', w0'))
         names ->
  (forall e, In e names -> collider_key e = None) ->
  forall acc w, for_in_M names scan_name acc w = (Ok acc, w).
Proof.
  induction 1 as [|e names (a & w0 & a' & w0' & Hstep) _ IH];
    intros Hplain acc w; cbn [for_in_M]; [reflexivity|].
  unfold bind.
  rewrite (scan_name_plain _ _ _ _ _ Hstep (Hplain e (or_introl eq_refl))).
  apply IH. intros e' He'. apply Hplain. now right.
Qed.

Lemma collider_key_In names entry k :
  In entry names -> collider_key entry = Some k ->
  In k (collider_keys names).
Proof.
  induction names as [|e names IH]; simpl; [tauto|].
  intros [->|Hin] Hkey.
  - rewrite Hkey. now left.
  - destruct (collider_key e); [right|]; auto.
Qed.

Lemma retained_entry_is_plain names entry :
  In entry names -> retained (collider_keys names) entry = true ->
  collider_key entry = None.
Proof.
  intros Hin Hkept. destruct (collider_key entry) as [k|] eqn:Hkey; [|auto].
  rewrite (collider_entry_dropped _ _ _ Hkey
             (collider_key_In _ _ _ Hin Hkey)) in Hkept.
  discriminate.
Qed.

Lemma collider_key_string s : collider_key (JStr s) = None.
Proof. reflexivity. Qed.

Lemma clean_scene_nil scene : clean_scene [] scene = scene.
Proof.
  unfold clean_scene. rewrite <- (map_id scene) at 2.
  apply map_ext. intros [k v]. unfold clean_item. simpl.
  now rewrite clean_value_nil.
Qed.

(** After the removal pass the scan finds nothing, and prints
    nothing. *)
Lemma find_nothing_after_cleanup scene ids w0 w1 :
  find_collider_entities scene w0 = (Ok ids, w1) ->
  forall w,
    find_collider_entities (clean_scene (identified scene) scene) w
    = (Ok [], w).
Proof.
  unfold find_collider_entities, getkey, bind, lift, ret. intros Hfind w.
  destruct (lookup "names" scene) as [v|] eqn:Hl.
  2:{ assert (Hl' : lookup "names" (clean_scene (identified scene) scene)
                    = None) by now rewrite lookup_clean_scene, Hl.
      apply contains_lookup in Hl'. now rewrite Hl'. }
  rewrite contains_true in Hfind by congruence.
  rewrite contains_true by (rewrite lookup_clean_scene, Hl; discriminate).
  rewrite lookup_clean_scene, Hl. cbn [option_map rbind] in *.
  destruct (iterate v) as [names|] eqn:Hit; [|discriminate].
  apply scan_names_steps in Hfind.
  unfold identified. rewrite Hl.
  destruct v as [| | | |s|l|d]; simpl in Hit; try discriminate;
    injection Hit as <-; cbn [clean_value iterate].
  - apply scan_names_quiet; [assumption|].
    intros e He. unfold chars in He. apply in_map_iff in He as (c & <- & _).
    reflexivity.
  - apply scan_names_quiet.
    + rewrite Forall_forall in *. intros e He.
      apply filter_In in He as [He _]. auto.
    + intros e He. apply filter_In in He as [He Hkept].
      now apply retained_entry_is_plain with (names := l).
  - apply scan_names_quiet; [assumption|].
    intros e He. apply in_map_iff in He as (kv & <- & _). reflexivity.
Qed.

(** A run that returns has scanned the names without an exception. *)
Lemma cleanup_has_scanned scene_path w scene w' :
  files w scene_path = Some scene ->
  cleanup_scene_colliders scene_path w = (Ok tt, w') ->
  exists ids w0 w1, find_collider_entities scene w0 = (Ok ids, w1).
Proof.
  intros Hfile. unfold cleanup_scene_colliders, bind.
  unfold print at 1, read_json. cbn [files]. rewrite Hfile.
  destruct (find_collider_entities scene _) as [[ids|e] w1] eqn:Hfind;
    [eauto|discriminate].
Qed.

(** The Collider Cleaner is idempotent: after a run that returned, a
    second run on the same path finds no collider entity, says so, and
    writes nothing. *)
Theorem cleanup_twice_finds_nothing scene_path w w1 scene :
  files w scene_path = Some scene ->
  NoDup (map fst scene) ->
  cleanup_scene_colliders scene_path w = (Ok tt, w1) ->
  cleanup_scene_colliders scene_path w1
  = (Ok tt, printed w1 [MsgCleaningUp scene_path; MsgTotalFound 0;
                        MsgNothingToClean]).
Proof.
  intros Hfile Hnd Hrun.
  destruct (cleanup_has_scanned _ _ _ _ Hfile Hrun)
    as (ids & w0 & w0' & Hscan).
  assert (Hfile1 : files w1 scene_path
                   = Some (clean_scene (identified scene) scene)).
  { destruct (identified scene) as [|k ks] eqn:Hids.
    - destruct (cleanup_writes_only_after_removal _ _ _ Hfile _ _ Hrun)
        as [m ->]; [now left|].
      cbn [printed files]. now rewrite clean_scene_nil.
    - assert (Hsome : identified scene <> []) by congruence.
      destruct (cleanup_with_colliders _ _ _ Hfile _ Hnd Hsome Hrun)
        as [m ->].
      cbn [files]. unfold files_after_cleanup.
      now rewrite String.eqb_refl, Hids. }
  unfold cleanup_scene_colliders, bind.
  unfold print at 1, read_json. cbn [files]. rewrite Hfile1.
  rewrite (find_nothing_after_cleanup _ _ _ _ Hscan).
  unfold print, printed. cbn [files stdin stdout List.length Z.of_nat].
  now rewrite <- !app_assoc.
Qed.

Lemma cleanup_twice_finds_nothing_witness :
  let w := world_with "scenes/main.json" collider_scene [] in
  let w1 := snd (cleanup_scene_colliders "scenes/main.json" w) in
  cleanup_scene_colliders "scenes/main.json" w1
  = (Ok tt, printed w1 [MsgCleaningUp "scenes/main.json"; MsgTotalFound 0;
                        MsgNothingToClean]).
Proof.
  intros w w1.
  apply (cleanup_twice_finds_nothing "scenes/main.json" w w1 collider_scene).
  - reflexivity.
  - repeat constructor; simpl; intuition discriminate.
  - reflexivity.
Defined.

(** The loop over the entries of a section raises nothing but
    [TypeError], and returns only when every non-empty list among the
    entries starts with a hashable value. *)
Lemma filter_entries_outcome ids entries :
  forall acc,
    match for_in entries (filter_entry ids) acc with
    | Ok _ => forallb entry_ok entries = true
    | Raise e => e = TypeError /\ forallb entry_ok entries = false
    end.
Proof.
  induction entries as [|entry entries IH]; intros acc; cbn [for_in forallb].
  - reflexivity.
  - unfold filter_entry at 1, entry_ok at 1 3.
    destruct entry as [| | | | |[|first l]|]; cbn [rbind andb];
      try apply IH.
    destruct (hashable first) as [k|e] eqn:Hk; cbn [rbind andb].
    + destruct (negb _); apply IH.
    + split; [|reflexivity].
      destruct first; simpl in Hk; congruence.
Qed.

Lemma remove_outcome ids items :
  forall state w,
    match for_in_M items (clean_section ids) state w with
    | (Ok _, _) => forallb section_ok items = true
    | (Raise e, _) => e = TypeError /\ forallb section_ok items = false
    end.
Proof.
  induction items as [|[k v] items IH]; intros [d n] w;
    cbn [for_in_M forallb].
  - reflexivity.
  - unfold bind, clean_section at 1, section_ok at 1 3. cbn [snd].
    destruct v as [| | | | |entries|]; unfold ret at 1; cbn [andb];
      try apply IH.
    unfold bind, lift.
    pose proof (filter_entries_outcome ids entries []) as Hentries.
    destruct (for_in entries (filter_entry ids) []) as [filtered|e].
    + rewrite Hentries. cbn [andb].
      destruct (negb _); unfold print, ret; apply IH.
    + destruct Hentries as [-> ->]. auto.
Qed.

(** Identifiers must be hashable: when collider entities are found and
    some entry of a list section is a list that starts with a list or
    a mapping, the removal pass raises [TypeError], and no file is
    written. *)
Theorem unhashable_identifier_raises_type_error scene_path w scene :
  files w scene_path = Some scene ->
  names_ok scene ->
  identified scene <> [] ->
  forallb section_ok scene = false ->
  exists messages,
    cleanup_scene_colliders scene_path w
    = (Raise TypeError, printed w messages).
Proof.
  intros Hfile Hnames Hsome Hbad.
  destruct (cleanup_scene_colliders scene_path w) as [outcome w'] eqn:Hrun.
  assert (Houtcome : outcome = Raise TypeError).
  { revert Hrun. unfold cleanup_scene_colliders, bind.
    unfold print at 1, read_json. cbn [files]. rewrite Hfile.
    destruct (find_total scene
                (World (files w) (stdin w)
                   (stdout w ++ [MsgCleaningUp scene_path])) Hnames)
      as (ids & w1 & Hfind).
    rewrite Hfind. apply find_nothing in Hfind.
    unfold print at 1.
    destruct ids as [|k ids]; [destruct Hsome; now apply Hfind|].
    unfold remove_collider_entities.
    match goal with
    | |- context [for_in_M scene ?body ?st ?w0] =>
        pose proof (remove_outcome (k :: ids) scene st w0) as Hout;
        destruct (for_in_M scene body st w0) as [[[d n]|e] w2]
    end.
    - congruence.
    - destruct Hout as [-> _]. now intros [= <- _]. }
  subst outcome.
  destruct (cleanup_writes_only_after_removal _ _ _ Hfile _ _ Hrun)
    as [messages ->]; [right; discriminate|].
  eauto.
Qed.

Lemma unhashable_identifier_raises_type_error_witness :
  let w := world_with "scenes/main.json" nested_id_scene [] in
  exists messages,
    cleanup_scene_colliders "scenes/main.json" w
    = (Raise TypeError, printed w messages).
Proof.
  intros w.
  apply (unhashable_identifier_raises_type_error "scenes/main.json" w
           nested_id_scene).
  - reflexivity.
  - right. eexists. split; reflexivity.
  - discriminate.
  - reflexivity.
Defined.

(** The scan up to a names entry on which a step raises. *)
Lemma scan_raises_at pre bad post e :
  forallb name_entry_ok pre = true ->
  (forall acc w, scan_name bad acc w = (Raise e, w)) ->
  forall acc w,
    exists messages,
      for_in_M (pre ++ bad :: post) scan_name acc w
      = (Raise e, printed w messages).
Proof.
  intros Hpre Hbad acc w. rewrite for_in_M_app.
  destruct (scan_names_total pre Hpre acc w) as (ids & w1 & Hscan).
  rewrite Hscan. cbn [for_in_M]. unfold bind. rewrite Hbad.
  destruct (only_prints_for scan_name pre only_prints_scan_name
              acc w _ _ Hscan) as [messages ->].
  eauto.
Qed.

(** A step of the scan that raises ends the cleanup with its
    exception, before anything is written. *)
Lemma cleanup_scan_raises scene_path w scene pre bad post e :
  files w scene_path = Some scene ->
  lookup "names" scene = Some (JArr (pre ++ bad :: post)) ->
  forallb name_entry_ok pre = true ->
  (forall acc w0, scan_name bad acc w0 = (Raise e, w0)) ->
  exists messages,
    cleanup_scene_colliders scene_path w = (Raise e, printed w messages).
Proof.
  intros Hfile Hl Hpre Hbad.
  unfold cleanup_scene_colliders, bind.
  unfold print at 1, read_json. cbn [files]. rewrite Hfile.
  unfold find_collider_entities, getkey, bind, lift.
  rewrite contains_true by congruence. rewrite Hl. cbn [rbind iterate].
  match goal with
  | |- context [for_in_M _ scan_name ?acc ?w0] =>
      destruct (scan_raises_at pre bad post e Hpre Hbad acc w0)
        as [messages ->]
  end.
  unfold printed. cbn [files stdin stdout].
  rewrite <- app_assoc. eauto.
Qed.

(** A names entry must hold an identifier and a name: after entries of
    that shape, an entry that is a list of fewer than two elements
    makes the cleaner raise [IndexError], and no file is written. *)
Theorem short_names_entry_raises_index_error
    scene_path w scene pre bad post :
  files w scene_path = Some scene ->
  lookup "names" scene = Some (JArr (pre ++ bad :: post)) ->
  forallb name_entry_ok pre = true ->
  bad = JArr [] \/ (exists x, bad = JArr [x]) ->
  exists messages,
    cleanup_scene_colliders scene_path w
    = (Raise IndexError, printed w messages).
Proof.
  intros Hfile Hl Hpre Hbad.
  apply cleanup_scan_raises
    with (scene := scene) (pre := pre) (bad := bad) (post := post);
    try assumption.
  destruct Hbad as [->|[x ->]]; reflexivity.
Qed.

Lemma short_names_entry_raises_index_error_witness :
  let w := world_with "scenes/main.json" short_name_scene [] in
  exists messages,
    cleanup_scene_colliders "scenes/main.json" w
    = (Raise IndexError, printed w messages).
Proof.
  intros w.
  apply (short_names_entry_raises_index_error "scenes/main.json" w
           short_name_scene [JArr [JInt 1; JStr "Collider_1"]]
           (JArr [JInt 2]) []).
  - reflexivity.
  - reflexivity.
  - reflexivity.
  - right. now exists (JInt 2).
Defined.

(** The name of an entity must be a string: after well-formed entries,
    a names entry whose second element is a number, a list, a mapping,
    a boolean or [null] makes the cleaner raise [AttributeError], and
    no file is written. *)
Theorem non_string_name_raises_attribute_error
    scene_path w scene pre entity_id entity_name more post :
  files w scene_path = Some scene ->
  lookup "names" scene
    = Some (JArr (pre ++ JArr (entity_id :: entity_name :: more) :: post)) ->
  forallb name_entry_ok pre = true ->
  (forall s, entity_name <> JStr s) ->
  exists messages,
    cleanup_scene_colliders scene_path w
    = (Raise AttributeError, printed w messages).
Proof.
  intros Hfile Hl Hpre Hnostr.
  apply cleanup_scan_raises
    with (scene := scene) (pre := pre) (post := post)
         (bad := JArr (entity_id :: entity_name :: more));
    try assumption.
  intros acc w0. unfold scan_name, bind, lift.
  change (getitem (JArr (entity_id :: entity_name :: more)) 0)
    with (Ok entity_id).
  change (getitem (JArr (entity_id :: entity_name :: more)) 1)
    with (Ok entity_name).
  destruct entity_name; try reflexivity. now destruct (Hnostr s).
Qed.

Lemma non_string_name_raises_attribute_error_witness :
  let w := world_with "scenes/main.json" numeric_name_scene [] in
  exists messages,
    cleanup_scene_colliders "scenes/main.json" w
    = (Raise AttributeError, printed w messages).
Proof.
  intros w.
  apply (non_string_name_raises_attribute_error "scenes/main.json" w
           numeric_name_scene [JArr [JInt 1; JStr "Player"]]
           (JInt 2) (JInt 7) [] []).
  - reflexivity.
  - reflexivity.
  - reflexivity.
  - discriminate.
Defined.







End CleanerCoverage.
